(* ===== verification/_CoqProject ===== *)
-Q . S2P
Prelude.v
PyCore.v
Sqlite.v
Discord.v
Browser.v
World.v
Fixtures.v
Persistence.v
Commands.v
Bot.v
Report.v
Liveness.v
