(* ===== verification/Prelude.v ===== *)
(** * TokenTrackr: a verification development of [src/token_trackr.py]

    The program is one Python module, a Discord bot built on discord.py, with
    four parts that interact through plain calls:

    - Persistence: [init_db] (l. 42-51) and [award_token] (l. 61-66) talk to
      the SQLite file [tokens.db]; the handler [killstats] (l. 88-102)
      queries the file [kill_log.db].  Every access is a
      [with sqlite3.connect(...) as conn] block of one statement.
    - Profile scraper: the body of the [lookup] handler (l. 106-161) drives a
      Selenium Chrome session: launch, [driver.get], two [WebDriverWait]
      extractions with fall-back strings, [driver.quit] in the body and again
      in [finally].
    - Command dispatcher: the slash commands [hello] (l. 55-57),
      [award_token] whose handler is the function [logkill] (l. 70-84),
      [killstats] and [lookup], registered on [bot.tree].
    - Bootstrap: the module top level (l. 15-27, 164-171) and [on_ready]
      (l. 31-38): [init_db()] runs first, then [bot.run(TOKEN)] only when the
      token is set.

    ** Files, in dependency order

    - [Prelude] (this file): the [trackr_scope] notations, the [trackr]
      hint database, the [trackr_run] rewrite base, the tactics of the
      development and the generic lemmas on strings, lists and [rtc].
    - [PyCore]: the part of the Python runtime the module relies on:
      exceptions and [except Exception], the state-and-exception monad
      [PyM] in which every handler is written, [try]/[except]/[finally],
      lenses ([zoom]) that run a component's operation on the whole state,
      the state triples [⦃ P ⦄ m ⦃ Q ⦄] with one rule per combinator (hint
      database [hoare], tactic [hoare_inv]), the triples with a result
      [triple P m Q E] for proofs that follow which way a [try] went, and
      the string builtins used
      ([str.strip], [str(int)], truthiness of [str]).
    - [Sqlite]: the SQLite files as a [gmap string database]; [connect]
      (creates an empty file), [CREATE TABLE IF NOT EXISTS], [INSERT] with
      column defaults, [CURRENT_TIMESTAMP] and 64-bit parameter binding,
      and the aggregate [SELECT ... COUNT( * ) ... GROUP BY] with its
      contract [grouped_counts]; the [with conn:] commit/rollback discipline
      of Python's sqlite3.
    - [Discord]: the interaction a handler answers: one response
      ([send_message] or [defer]), then followups; the 2000-character limit.
    - [Browser]: the DOM, the two locators of [lookup], the polling loop of
      [WebDriverWait.until] and its reference behaviour, the Chrome session
      operations against the oracle class [Web] (Chrome and the site), and
      the bookkeeping of started and quit sessions.
    - [World]: the record [world] (files, clock, log, interaction, browser)
      every handler runs on, the lenses to its parts and the frame rules
      saying which operations cannot touch which part.
    - [Fixtures]: concrete users, worlds, a profile page and three [Web]
      behaviours on which the theorems are instantiated.
    - [Persistence]: [init_db], [award_token], the abstract award log
      [awards] and the kill-log insert [recordKill] of the specification
      (the module calls a [log_kill] it never defines).
    - [Commands]: the handlers [hello], [logkill], [killstats], [lookup],
      statement by statement, and what each leaves unchanged.
    - [Bot]: the command tree and discord.py's dispatch with its default
      [on_error], [on_ready], the module top level [main], and the bot's
      life as the step relation [step] (boot, then one step per event) with
      its executable run [run_bot].
    - [Report]: a parser of the layout of the [killstats] reply (decimal
      numerals, labelled lines, blocks) and the proof that the reply reads
      back as the query's groups.
    - [Liveness]: the answer of [lookup] under every behaviour of Chrome
      and the site, on the triples with a result of [PyCore] ([triple]: a
      postcondition for the value returned and one for the exception
      raised).

    ** What the theorems show (claims C1-C24 of PROJECT.json)

    - Errors on the paths of the handlers: the [award_token] command always
      raises [NameError] (C1); [killstats] fails on a fresh store because no
      code creates [kills] (C2); a failed Chrome launch ends in
      [UnboundLocalError] from [finally] (C3); a failed body [driver.quit()]
      turns a scraped profile into the generic failure (C5); a failed page
      load is reported and quits once (C22).
    - Every lookup is answered: whatever Chrome and the site do, [lookup]
      sends exactly one followup, the profile or the generic failure, also
      when it ends in an exception (C7).
    - Functional behaviour: [lookup] on success, with both waits and two
      quits (C4); the award insert refines "append one award" on [awards]
      (C10) and overflows past 64 bits (C20); [init_db] is idempotent
      (C11); [logkill] with the specification's [recordKill] refines
      [logKill] (C12) and validates its fields (C19); the query of
      [killstats] returns each distinct kill triple once with its count
      (C14); [killstats] reports every triple with its exact count or hits
      the 2000-character limit (C13) and answers an empty log (C21);
      [hello] (C23), the top level (C18) and [on_ready] (C24).
    - Round trip: the [killstats] reply reads back as the groups of the
      log when names are one line (C15); for every log, a pilot name with
      line breaks forges the reply of another log (C16).
    - Invariants of every run of the bot, by induction on [rtc step]: no
      Chrome session is left running whatever Chrome does (C6); no command
      ever writes [tokens.db] after boot (C8); [kills] is never created and
      [killstats] never answers (C9); without a token nothing is served
      (C17).

    ** Bounds and fuel

    The only loop with a bound is Selenium's [WebDriverWait.until], which
    polls every 500 ms for at most 10 s; it is modelled by a fixpoint whose
    fuel (20 further polls after the first) is shown sufficient
    ([until_loop_ref]).  Probes and sleeps take no time in the model, and
    Chrome's launch, page load and quit take none either, so no claim is
    made about how long a lookup lasts.  SQLite [INTEGER] columns are
    64-bit signed: binding a Python int outside that range raises
    [OverflowError], as sqlite3 does.  Times are Z milliseconds;
    [CURRENT_TIMESTAMP] is the clock in whole seconds.  [GROUP BY] returns
    its groups in order of first occurrence; SQLite leaves that order
    undefined, and only the order of the round trip (C15) depends on it.
    The reply parser of [Report] reads a block per iteration; the length of
    the text is enough fuel since every block is at least one character.

    ** Not modelled

    The discord.py event loop and gateway, the Chrome browser and the
    network, and the [logging] and [dotenv] libraries are external: they
    appear only through the values they hand to the module (the events,
    the page, the token) and the effects the module asks of them (replies,
    log lines).  A handler runs as one step: the interleaving of handlers
    at their [await]s is not modelled (the shared state they touch, the
    SQLite files, is accessed by blocking calls that do not yield).
    Strings are ASCII; [str.strip] is modelled on the ASCII whitespace
    characters. *)

From stdpp Require Export base list gmap strings pretty.
From Stdlib Require Export ZArith Lia Ascii.

Declare Scope trackr_scope.
Delimit Scope trackr_scope with trackr.
Open Scope trackr_scope.

(** ** Characters and strings *)

(** The newline character, written [\n] in the Python f-strings. *)
Definition nl : string := String (Ascii.ascii_of_nat 10) EmptyString.

(** The characters of a string. *)
Definition chars (s : string) : list ascii := String.list_ascii_of_string s.

(** [s ⊑ₛ t]: the string [s] occurs verbatim inside [t]. *)
Definition str_infix (s t : string) : Prop :=
  ∃ a b, chars t = a ++ chars s ++ b.
Notation "s ⊑ₛ t" := (str_infix s t) (at level 70) : trackr_scope.

(** The boolean search: [s] is a prefix of some suffix of [t]. *)
Fixpoint infixb (s t : list ascii) : bool :=
  bool_decide (s `prefix_of` t) ||
  match t with [] => false | _ :: t' => infixb s t' end.

(** The number of elements of [l] equal to [x], as a boolean count. *)
Definition occ `{EqDecision A} (x : A) (l : list A) : nat :=
  length (filter (fun y => y = x) l).

Lemma infixb_spec (s t : list ascii) :
  infixb s t = true <-> ∃ a b, t = a ++ s ++ b.
Proof.
  induction t as [|c t IH]; simpl; rewrite orb_true_iff, bool_decide_eq_true.
  - split.
    + intros [[k Hk]|Hf]; [|discriminate]. by exists [], k.
    + intros (a & b & Hab). left. exists b. by destruct a.
  - rewrite IH. split.
    + intros [[k Hk]|(a & b & Hab)]; [by exists [], k|].
      exists (c :: a), b. by rewrite Hab.
    + intros ([|c' a] & b & Hab); [left; by exists b|].
      simpl in Hab. injection Hab as -> Hab. right. eauto.
Qed.

#[export] Instance str_infix_dec s t : Decision (s ⊑ₛ t).
Proof.
  refine (cast_if (decide (infixb (chars s) (chars t) = true)));
    by rewrite infixb_spec in *.
Defined.

Create HintDb trackr discriminated.
Create Rewrite HintDb trackr_run.

Lemma chars_app (s t : string) :
  chars (s +:+ t) = chars s ++ chars t.
Proof. induction s as [|c s IH]; [done|]. exact (f_equal (cons c) IH). Qed.

Lemma string_app_assoc (s t u : string) : (s +:+ t) +:+ u = s +:+ (t +:+ u).
Proof. induction s as [|c s IH]; [done|]. exact (f_equal (String c) IH). Qed.

Lemma string_app_nil_r (s : string) : s +:+ "" = s.
Proof. induction s as [|c s IH]; [done|]. exact (f_equal (String c) IH). Qed.

Lemma string_app_nil_l (s : string) : "" +:+ s = s.
Proof. done. Qed.

Lemma string_length_app (s t : string) :
  String.length (s +:+ t) = String.length s + String.length t.
Proof. induction s as [|c s IH]; [done|]. exact (f_equal S IH). Qed.

Lemma str_infix_app_l s t u : s ⊑ₛ t -> s ⊑ₛ (u +:+ t).
Proof.
  intros (a & b & H). exists (chars u ++ a), b.
  by rewrite chars_app, H, app_assoc.
Qed.

Lemma str_infix_app_r s t u : s ⊑ₛ t -> s ⊑ₛ (t +:+ u).
Proof.
  intros (a & b & H). exists a, (b ++ chars u).
  rewrite chars_app, H. by rewrite <- !app_assoc.
Qed.

Lemma str_infix_refl s : s ⊑ₛ s.
Proof. exists [], []. by rewrite app_nil_r. Qed.

#[export] Hint Resolve str_infix_refl str_infix_app_l str_infix_app_r : trackr.

(** A string built as [a +:+ s +:+ b] contains [s]. *)
Lemma str_infix_middle s a b : s ⊑ₛ (a +:+ s +:+ b).
Proof. auto with trackr. Qed.

#[export] Hint Resolve str_infix_middle : trackr.

(** ** Lists *)

Lemma occ_nil `{EqDecision A} (x : A) : occ x [] = 0.
Proof. done. Qed.

Lemma occ_cons `{EqDecision A} (x y : A) (l : list A) :
  occ x (y :: l) = (if decide (y = x) then 1 else 0) + occ x l.
Proof. unfold occ. rewrite filter_cons. by case_decide. Qed.

Lemma occ_app `{EqDecision A} (x : A) (l k : list A) : occ x (l ++ k) = occ x l + occ x k.
Proof. unfold occ. by rewrite filter_app, length_app. Qed.

Lemma occ_perm `{EqDecision A} (x : A) (l k : list A) : l ≡ₚ k -> occ x l = occ x k.
Proof. intros Hp. unfold occ. by rewrite Hp. Qed.

Lemma occ_pos `{EqDecision A} (x : A) (l : list A) : x ∈ l <-> 0 < occ x l.
Proof.
  induction l as [|y l IH]; rewrite ?occ_cons, ?occ_nil.
  - rewrite elem_of_nil. lia.
  - rewrite elem_of_cons, IH. case_decide as Hyx.
    + split; [lia|by left].
    + split; [intros [->|?]; [done|lia]|lia].
Qed.

Lemma occ_fresh `{EqDecision A} (x : A) l : x ∉ l -> occ x l = 0.
Proof. intros Hx. destruct (occ x l) eqn:E; [done|]. exfalso. apply Hx, occ_pos. lia. Qed.

(** Counting is invariant under permutation, so [≡ₚ] rewrites under [occ]. *)
#[export] Instance occ_proper `{EqDecision A} (x : A) : Proper ((≡ₚ) ==> (=)) (occ x).
Proof. intros l k Hp. by apply occ_perm. Qed.

#[export] Hint Rewrite @occ_nil @occ_cons @occ_app : trackr_run.

(** [mapM] over a list extended at the end. *)
Lemma mapM_snoc_Some {A B} (f : A -> option B) l k x y :
  mapM f l = Some k -> f x = Some y -> mapM f (l ++ [x]) = Some (k ++ [y]).
Proof.
  intros Hl Hx. apply mapM_Some_2, Forall2_app; [by apply mapM_Some_1|by constructor].
Qed.

(** [omap] with a function that keeps every element. *)
Lemma omap_id_Forall {A} (f : A -> option A) l : Forall (fun x => f x = Some x) l -> omap f l = l.
Proof.
  induction 1 as [|x l Hx _ IH]; [done|].
  change (omap f (x :: l)) with (match f x with Some y => y :: omap f l | None => omap f l end).
  by rewrite Hx, IH.
Qed.

(** A property kept by every step holds in every state reachable from one
    that has it. *)
Lemma rtc_invariant {A} (R : relation A) (P : A -> Prop) x y :
  (∀ a b, R a b -> P a -> P b) -> rtc R x y -> P x -> P y.
Proof. intros Hstep Hr. induction Hr; eauto. Qed.

(** ** Tactics *)

(** Invert a hypothesis and clean up. *)
Ltac invc H := inversion H; clear H; subst.

(** Close a goal about the strings a handler builds. *)
Ltac solve_infix :=
  repeat rewrite string_app_assoc; auto 10 with trackr.

(** Case on every [decide] of the goal, substituting the equalities. *)
Ltac case_decides :=
  repeat match goal with
  | |- context [decide ?P] => destruct (decide P); subst
  end.
