(* ===== verification/PyCore.v ===== *)
(** * PyCore: the Python runtime that [token_trackr.py] relies on

    The exceptions the module meets, the state-and-exception monad [PyM] in
    which every function of the module is written, Python's
    [try]/[except Exception]/[finally], lenses that run one component's
    operation on the whole state, two program logics for [PyM] (state
    triples, and triples with a result and an exception postcondition),
    and the string builtins the module calls ([str.strip], [str(int)],
    f-string formatting of [None], truthiness). *)

From S2P Require Import Prelude.

(** ** Exceptions *)

(** The exception classes raised on the paths of the module, each with the
    message [str(e)] prints.  [CancelledError] derives from [BaseException]
    only, so [except Exception] lets it through. *)
Inductive exn :=
| NameError (msg : string)
| UnboundLocalError (msg : string)
| OverflowError (msg : string)
| OperationalError (msg : string)
| ProgrammingError (msg : string)
| IndexError (msg : string)
| TimeoutException (msg : string)
| WebDriverException (msg : string)
| InteractionResponded
| HTTPException (msg : string)
| CancelledError.

#[export] Instance exn_eq_dec : EqDecision exn.
Proof. solve_decision. Defined.

(** [isinstance(e, Exception)]. *)
Definition is_Exception (e : exn) : bool :=
  match e with CancelledError => false | _ => true end.

(** [str(e)]; Selenium prefixes its messages with ["Message: "]. *)
Definition exn_str (e : exn) : string :=
  match e with
  | NameError m | UnboundLocalError m | OverflowError m
  | OperationalError m | ProgrammingError m | IndexError m | HTTPException m => m
  | TimeoutException m | WebDriverException m => "Message: " +:+ m +:+ nl
  | InteractionResponded => "This interaction has already been responded to before"
  | CancelledError => ""
  end.

(** ** The state-and-exception monad *)

(** A statement either completes with a value or raises. *)
Inductive res (A : Type) := Ok (a : A) | Exn (e : exn).
Arguments Ok {A} a.
Arguments Exn {A} e.

#[export] Instance res_eq_dec `{EqDecision A} : EqDecision (res A).
Proof. solve_decision. Defined.

(** A computation of the module on state [S]: the effects made before an
    exception are kept in the final state, as in Python. *)
Definition PyM (S A : Type) : Type := S -> res A * S.

#[export] Instance py_ret {S} : MRet (PyM S) := fun A a s => (Ok a, s).
#[export] Instance py_bind {S} : MBind (PyM S) := fun A B k m s =>
  match m s with
  | (Ok a, s') => k a s'
  | (Exn e, s') => (Exn e, s')
  end.

Section Monad.
Context {S : Type}.

Definition raise {A} (e : exn) : PyM S A := fun s => (Exn e, s).
Definition get : PyM S S := fun s => (Ok s, s).
Definition put (s : S) : PyM S unit := fun _ => (Ok tt, s).
Definition modify (f : S -> S) : PyM S unit := fun s => (Ok tt, f s).
Definition gets {A} (f : S -> A) : PyM S A := fun s => (Ok (f s), s).

(** [try: body except Exception as e: handler e]. *)
Definition try_except {A} (body : PyM S A) (handler : exn -> PyM S A) : PyM S A :=
  fun s =>
    match body s with
    | (Exn e, s') => if is_Exception e then handler e s' else (Exn e, s')
    | r => r
    end.

(** [try: body finally: fin]: [fin] runs on every exit path; an exception it
    raises replaces the outcome of [body]. *)
Definition try_finally {A} (body : PyM S A) (fin : PyM S unit) : PyM S A :=
  fun s =>
    let '(r, s') := body s in
    match fin s' with
    | (Ok _, s'') => (r, s'')
    | (Exn e, s'') => (Exn e, s'')
    end.

End Monad.

Arguments raise {S A} e _.
Arguments get {S} _.

(** ** Lenses: one component's state inside the whole state *)

Record lens (S T : Type) := Lens { lget : S -> T; lset : T -> S -> S }.
Arguments Lens {S T} _ _.
Arguments lget {S T} _ _.
Arguments lset {S T} _ _ _.

Class LensLaws {S T} (l : lens S T) := {
  lget_lset t s : lget l (lset l t s) = t;
  lset_lget s : lset l (lget l s) s = s;
  lset_lset t t' s : lset l t (lset l t' s) = lset l t s
}.

(** Run an operation of the component on its part of the state. *)
Definition zoom {S T A} (l : lens S T) (m : PyM T A) : PyM S A :=
  fun s => let '(r, t) := m (lget l s) in (r, lset l t s).

(** ** State triples

    [⦃ P ⦄ m ⦃ Q ⦄]: from a state satisfying [P], [m] ends in a state
    satisfying [Q], whether it returns or raises.  The rules follow the
    combinators, so an invariant of a whole handler follows from the
    invariants of the operations it calls. *)

Definition hoare {S A} (P : S -> Prop) (m : PyM S A) (Q : S -> Prop) : Prop :=
  ∀ s, P s -> Q (m s).2.
#[warnings="-closed-notation-not-level-0"]
Notation "⦃ P ⦄ m ⦃ Q ⦄" := (hoare P m Q) (at level 20, m at level 99) : trackr_scope.

(** Triples with a result: from a state satisfying [P], [m] returns [a] in
    a state satisfying [Q a], or raises [e] in a state satisfying [E e].
    Needed where what follows depends on whether an operation raised, as
    in the [try] of a handler. *)
Definition triple {S A} (P : S -> Prop) (m : PyM S A) (Q : A -> S -> Prop) (E : exn -> S -> Prop) : Prop :=
  ∀ s, P s -> match m s with (Ok a, s') => Q a s' | (Exn e, s') => E e s' end.

(** Whatever [m] raises is an [Exception], which [except Exception] catches. *)
Definition raises_Exceptions {S A} (m : PyM S A) : Prop :=
  ∀ s, match (m s).1 with Exn e => is_Exception e = true | Ok _ => True end.

Create HintDb hoare discriminated.

(** ** String builtins *)

(** The characters [str.isspace] accepts in the ASCII range: [\t \n \v \f \r],
    the separators [\x1c]-[\x1f] and the space. *)
Definition py_isspace (c : ascii) : bool :=
  let n := Ascii.nat_of_ascii c in
  ((9 <=? n) && (n <=? 13)) || ((28 <=? n) && (n <=? 32)).

Definition of_chars (l : list ascii) : string := String.string_of_list_ascii l.

Fixpoint drop_space (l : list ascii) : list ascii :=
  match l with
  | c :: l' => if py_isspace c then drop_space l' else l
  | [] => []
  end.

(** [s.strip()]: drop the whitespace at both ends. *)
Definition py_strip (s : string) : string :=
  of_chars (reverse (drop_space (reverse (drop_space (chars s))))).

(** [str(n)] of a Python int. *)
Definition py_str_int (z : Z) : string := pretty z.

(** [f"{x}"] of an [Optional[str]]. *)
Definition py_str_opt (o : option string) : string :=
  match o with Some s => s | None => "None" end.

(** The truth value of a [str]: [not s] holds of the empty string only. *)
Definition py_truthy_str (s : string) : bool := negb (String.eqb s "").

(** The whitespace runs [str.strip] removes, and what it leaves. *)

Definition all_space (w : list ascii) : Prop := Forall (fun c => py_isspace c = true) w.

(** No whitespace at either end. *)
Definition trimmed (l : list ascii) : Prop :=
  (∀ c, head l = Some c -> py_isspace c = false) ∧
  (∀ c, last l = Some c -> py_isspace c = false).

(** ** Laws of the monad *)

Section MonadLemmas.
Context {S : Type}.

Lemma run_ret {A} (a : A) s : (mret a : PyM S A) s = (Ok a, s).
Proof. done. Qed.

Lemma run_bind {A B} (m : PyM S A) (k : A -> PyM S B) s :
  (m ≫= k) s = match m s with (Ok a, s') => k a s' | (Exn e, s') => (Exn e, s') end.
Proof. done. Qed.

Lemma run_raise {A} e s : (raise e : PyM S A) s = (Exn e, s).
Proof. done. Qed.

Lemma bind_ret_l {A B} (a : A) (k : A -> PyM S B) s : (mret a ≫= k) s = k a s.
Proof. done. Qed.

Lemma bind_ret_r {A} (m : PyM S A) s : (m ≫= mret) s = m s.
Proof. rewrite run_bind. by destruct (m s) as [[] ?]. Qed.

Lemma bind_assoc {A B C} (m : PyM S A) (k : A -> PyM S B) (h : B -> PyM S C) s :
  ((m ≫= k) ≫= h) s = (m ≫= (fun a => k a ≫= h)) s.
Proof. rewrite !run_bind. by destruct (m s) as [[] ?]. Qed.

Lemma bind_raise {A B} e (k : A -> PyM S B) s : (raise e ≫= k) s = (Exn e, s).
Proof. done. Qed.

(** The handler of [try_except] runs exactly on an [Exception]. *)
Lemma try_except_ok {A} (body : PyM S A) h s a s' :
  body s = (Ok a, s') -> try_except body h s = (Ok a, s').
Proof. unfold try_except. by intros ->. Qed.

Lemma try_except_catch {A} (body : PyM S A) h s e s' :
  body s = (Exn e, s') -> is_Exception e = true -> try_except body h s = h e s'.
Proof. unfold try_except. intros -> ->. done. Qed.

Lemma try_finally_run {A} (body : PyM S A) fin s :
  try_finally body fin s =
  let '(r, s') := body s in
  match fin s' with (Ok _, s'') => (r, s'') | (Exn e, s'') => (Exn e, s'') end.
Proof. done. Qed.

End MonadLemmas.

#[export] Hint Rewrite @run_ret @run_bind @run_raise : trackr_run.

(** ** Lenses *)

Lemma run_zoom {S T A} (l : lens S T) (m : PyM T A) s :
  zoom l m s = (fst (m (lget l s)), lset l (snd (m (lget l s))) s).
Proof. unfold zoom. by destruct (m (lget l s)). Qed.

(** An operation that leaves its part unchanged leaves the whole unchanged. *)
Lemma zoom_frame {S T A} (l : lens S T) `{!LensLaws l} (m : PyM T A) s :
  snd (m (lget l s)) = lget l s -> snd (zoom l m s) = s.
Proof. rewrite run_zoom. simpl. intros ->. apply lset_lget. Qed.

(** ** Rules of the state triples *)

Section Hoare.
Context {S : Type}.
Implicit Types P Q R : S -> Prop.

Lemma hoare_ret {A} P (a : A) : ⦃ P ⦄ mret a ⦃ P ⦄.
Proof. by intros s. Qed.

Lemma hoare_raise {A} P e : ⦃ P ⦄ (raise e : PyM S A) ⦃ P ⦄.
Proof. by intros s. Qed.

Lemma hoare_gets {A} P (f : S -> A) : ⦃ P ⦄ gets f ⦃ P ⦄.
Proof. by intros s. Qed.

Lemma hoare_modify P Q f : (∀ s, P s -> Q (f s)) -> ⦃ P ⦄ modify f ⦃ Q ⦄.
Proof. intros Hf s. apply Hf. Qed.

Lemma hoare_weaken {A} P P' Q Q' (m : PyM S A) :
  (∀ s, P' s -> P s) -> (∀ s, Q s -> Q' s) -> ⦃ P ⦄ m ⦃ Q ⦄ -> ⦃ P' ⦄ m ⦃ Q' ⦄.
Proof. intros HP HQ Hm s Hs. by apply HQ, Hm, HP. Qed.

(** [m ≫= k]: an exception of [m] ends the computation, so its state must
    already satisfy the final condition. *)
Lemma hoare_bind {A B} P Q R (m : PyM S A) (k : A -> PyM S B) :
  ⦃ P ⦄ m ⦃ Q ⦄ -> (∀ a, ⦃ Q ⦄ k a ⦃ R ⦄) -> (∀ s, Q s -> R s) -> ⦃ P ⦄ m ≫= k ⦃ R ⦄.
Proof.
  intros Hm Hk HQR s Hs. rewrite run_bind.
  specialize (Hm s Hs). destruct (m s) as [[a|e] s']; [by apply Hk|by apply HQR].
Qed.

Lemma hoare_bind_inv {A B} P (m : PyM S A) (k : A -> PyM S B) :
  ⦃ P ⦄ m ⦃ P ⦄ -> (∀ a, ⦃ P ⦄ k a ⦃ P ⦄) -> ⦃ P ⦄ m ≫= k ⦃ P ⦄.
Proof. intros Hm Hk. by apply (hoare_bind P P). Qed.

Lemma hoare_bind_raise {A B} P e (k : A -> PyM S B) : ⦃ P ⦄ raise e ≫= k ⦃ P ⦄.
Proof. by intros s. Qed.

Lemma hoare_try_except {A} P Q (body : PyM S A) h :
  ⦃ P ⦄ body ⦃ Q ⦄ -> (∀ e, ⦃ Q ⦄ h e ⦃ Q ⦄) -> ⦃ P ⦄ try_except body h ⦃ Q ⦄.
Proof.
  intros Hb Hh s Hs. unfold try_except. specialize (Hb s Hs).
  destruct (body s) as [[a|e] s']; [done|]. destruct (is_Exception e); [by apply Hh|done].
Qed.

(** [finally] runs on every exit of the body, so its postcondition is the
    whole statement's. *)
Lemma hoare_try_finally {A} P Q R (body : PyM S A) fin :
  ⦃ P ⦄ body ⦃ Q ⦄ -> ⦃ Q ⦄ fin ⦃ R ⦄ -> ⦃ P ⦄ try_finally body fin ⦃ R ⦄.
Proof.
  intros Hb Hf s Hs. unfold try_finally. specialize (Hb s Hs).
  destruct (body s) as [r s']. specialize (Hf s' Hb). by destruct (fin s') as [[] s''].
Qed.

Lemma hoare_try_finally_inv {A} P (body : PyM S A) fin :
  ⦃ P ⦄ body ⦃ P ⦄ -> ⦃ P ⦄ fin ⦃ P ⦄ -> ⦃ P ⦄ try_finally body fin ⦃ P ⦄.
Proof. apply hoare_try_finally. Qed.

End Hoare.

Lemma hoare_zoom {S T A} (l : lens S T) (P Q : S -> Prop) (Pi Qi : T -> Prop) (m : PyM T A) :
  (∀ s, P s -> Pi (lget l s)) -> ⦃ Pi ⦄ m ⦃ Qi ⦄ -> (∀ s t, P s -> Qi t -> Q (lset l t s)) ->
  ⦃ P ⦄ zoom l m ⦃ Q ⦄.
Proof. intros HP Hm HQ s Hs. rewrite run_zoom. apply HQ; [done|]. by apply Hm, HP. Qed.

(** An operation on a part that the invariant does not read keeps it. *)
Lemma hoare_zoom_frame {S T A} (l : lens S T) (P : S -> Prop) (m : PyM T A) :
  (∀ t s, P s -> P (lset l t s)) -> ⦃ P ⦄ zoom l m ⦃ P ⦄.
Proof. intros HP. apply (hoare_zoom l P P (fun _ => True) (fun _ => True)); [done|by intros ?|auto]. Qed.

(** ** Rules of the triples with a result *)

Section Triple.
Context {S : Type}.
Implicit Types P : S -> Prop.

Lemma triple_weaken {A} P P' (Q Q' : A -> S -> Prop) E E' (m : PyM S A) :
  (∀ s, P' s -> P s) -> (∀ a s, Q a s -> Q' a s) -> (∀ e s, E e s -> E' e s) ->
  triple P m Q E -> triple P' m Q' E'.
Proof. intros HP HQ HE Hm s Hs. specialize (Hm s (HP s Hs)). destruct (m s) as [[]]; auto. Qed.

Lemma triple_ret {A} P (Q : A -> S -> Prop) E a : (∀ s, P s -> Q a s) -> triple P (mret a) Q E.
Proof. intros HQ s. apply HQ. Qed.

Lemma triple_raise {A} P (Q : A -> S -> Prop) E e : (∀ s, P s -> E e s) -> triple P (raise e) Q E.
Proof. intros HE s. apply HE. Qed.

Lemma triple_bind {A B} P (R : A -> S -> Prop) (Q : B -> S -> Prop) E (m : PyM S A) k :
  triple P m R E -> (∀ a, triple (R a) (k a) Q E) -> triple P (m ≫= k) Q E.
Proof.
  intros Hm Hk s Hs. rewrite run_bind. specialize (Hm s Hs).
  destruct (m s) as [[a|e] s']; [by apply Hk|done].
Qed.

(** [try: body except Exception as e: h e]: the handler starts from the
    state the body raised in; a [BaseException] passes through. *)
Lemma triple_try_except {A} P (Q : A -> S -> Prop) E E' body h :
  triple P body Q E' ->
  (∀ e, is_Exception e = true -> triple (E' e) (h e) Q E) ->
  (∀ e s, is_Exception e = false -> E' e s -> E e s) ->
  triple P (try_except body h) Q E.
Proof.
  intros Hb Hh Hp s Hs. unfold try_except. specialize (Hb s Hs).
  destruct (body s) as [[a|e] s']; [done|].
  destruct (is_Exception e) eqn:He; [by apply Hh|by apply Hp].
Qed.

(** [try: body finally: fin]: [fin] runs on either outcome; its own
    exception replaces the body's outcome. *)
Lemma triple_try_finally {A} P (Q Q' : A -> S -> Prop) E E' body fin :
  triple P body Q' E' ->
  (∀ a, triple (Q' a) fin (fun _ => Q a) E) ->
  (∀ e, triple (E' e) fin (fun _ => E e) E) ->
  triple P (try_finally body fin) Q E.
Proof.
  intros Hb Hok Hexn s Hs. unfold try_finally. specialize (Hb s Hs).
  destruct (body s) as [[a|e] s']; [specialize (Hok a s' Hb)|specialize (Hexn e s' Hb)];
    by destruct (fin s') as [[]].
Qed.

(** A triple whose two postconditions agree is a state triple. *)
Lemma triple_hoare {A} P Q (m : PyM S A) : triple P m (fun _ => Q) (fun _ => Q) -> ⦃ P ⦄ m ⦃ Q ⦄.
Proof. intros Hm s Hs. specialize (Hm s Hs). by destruct (m s) as [[]]. Qed.

End Triple.

(** An operation on a part, in terms of the part only. *)
Lemma triple_zoom {S T A} (l : lens S T) P (Q : A -> S -> Prop) E (m : PyM T A) :
  (∀ s0, P s0 -> triple (eq (lget l s0)) m (fun a t => Q a (lset l t s0)) (fun e t => E e (lset l t s0))) ->
  triple P (zoom l m) Q E.
Proof.
  intros Hm s Hs. unfold zoom. specialize (Hm s Hs (lget l s) eq_refl).
  by destruct (m (lget l s)) as [[]].
Qed.

#[export] Hint Resolve hoare_ret hoare_raise hoare_gets hoare_bind_raise hoare_bind_inv : hoare.

(** Split an invariant of a handler into invariants of its operations. *)
Ltac hoare_inv :=
  repeat first
    [ progress intros
    | apply hoare_bind_inv
    | apply hoare_try_except
    | apply hoare_try_finally_inv
    | apply hoare_ret | apply hoare_raise | apply hoare_gets
    | case_match ].

(** ** [str.strip] *)

Lemma chars_of_chars l : chars (of_chars l) = l.
Proof. apply String.list_ascii_of_string_of_list_ascii. Qed.

Lemma of_chars_chars s : of_chars (chars s) = s.
Proof. apply String.string_of_list_ascii_of_string. Qed.

Lemma drop_space_split l : ∃ w, l = w ++ drop_space l ∧ all_space w.
Proof.
  induction l as [|c l (w & Hw & Hf)]; simpl; [exists []; split; [done|constructor]|].
  destruct (py_isspace c) eqn:Hc; [|exists []; split; [done|constructor]].
  exists (c :: w). split; [simpl; by rewrite <- Hw|by constructor].
Qed.

Lemma drop_space_head l c : head (drop_space l) = Some c -> py_isspace c = false.
Proof.
  induction l as [|c' l IH]; simpl; [done|].
  destruct (py_isspace c') eqn:Hc; [done|]. by intros [= <-].
Qed.

Lemma drop_space_id l : (∀ c, head l = Some c -> py_isspace c = false) -> drop_space l = l.
Proof. destruct l as [|c l]; simpl; [done|]. intros H. by rewrite (H c). Qed.

(** [s.strip()] removes whitespace runs [w1] and [w2] at the ends of [s] and
    leaves a string with no whitespace at either end: the three conditions
    determine it. *)
Lemma py_strip_spec s :
  ∃ w1 w2, chars s = w1 ++ chars (py_strip s) ++ w2 ∧ all_space w1 ∧ all_space w2 ∧
    trimmed (chars (py_strip s)).
Proof.
  unfold py_strip. rewrite chars_of_chars.
  destruct (drop_space_split (chars s)) as (w1 & H1 & F1).
  set (a := drop_space (chars s)) in *.
  destruct (drop_space_split (reverse a)) as (w2 & H2 & F2).
  set (b := drop_space (reverse a)) in *.
  assert (Ha : a = reverse b ++ reverse w2).
  { by rewrite <- reverse_app, <- H2, reverse_involutive. }
  exists w1, (reverse w2). split_and!; [by rewrite H1, Ha|done|by apply Forall_reverse|split].
  - intros c Hc. apply (drop_space_head (chars s)). fold a.
    rewrite Ha, head_app, Hc. done.
  - intros c Hc. rewrite last_reverse in Hc. by apply (drop_space_head (reverse a)).
Qed.

Lemma py_strip_trimmed_id s : trimmed (chars s) -> py_strip s = s.
Proof.
  intros [Hh Hl]. unfold py_strip. rewrite (drop_space_id _ Hh), drop_space_id.
  - by rewrite reverse_involutive, of_chars_chars.
  - intros c. rewrite head_reverse. apply Hl.
Qed.
(** Evaluate a computation of the monad as far as its inputs allow. *)
Ltac run_py :=
  cbv [mbind py_bind mret py_ret raise get put modify gets try_except try_finally zoom lget lset];
  cbn.
