(* ===== verification/Sqlite.v ===== *)
(** * Sqlite: the SQLite files the module writes and reads

    The store is the set of database files, a [gmap] from path to database;
    a database maps a table name to its columns and its rows (in insertion
    order).  The three statements of the module are modelled: [CREATE TABLE
    IF NOT EXISTS] (l. 45), [INSERT INTO ... VALUES (?, ?, ?)] (l. 64) and the
    aggregate [SELECT k1, k2, k3, COUNT( * ) ... GROUP BY k1, k2, k3] (l. 93).
    A connection follows Python's sqlite3 in its default (legacy) mode: a DML
    statement opens a transaction implicitly, DDL outside a transaction is
    committed at once, [commit] ends the transaction, and the
    [with conn:] block commits on normal exit and rolls back on an exception.
    [sqlite3.connect] creates an empty file when the path does not exist. *)

From S2P Require Import Prelude PyCore.

(** ** Values, tables, files *)

(** A stored value.  [STimestamp t] is the text ['YYYY-MM-DD HH:MM:SS'] that
    [CURRENT_TIMESTAMP] stores for the second [t]: it has second resolution. *)
Inductive sqlval := SInt (z : Z) | SText (s : string) | SNull | STimestamp (t : Z).

#[export] Instance sqlval_eq_dec : EqDecision sqlval.
Proof. solve_decision. Defined.

Inductive coldefault := DefNull | DefCurrentTimestamp.

Record column := Column { col_name : string; col_type : string; col_default : coldefault }.

Record table := Table { tbl_cols : list column; tbl_rows : list (list sqlval) }.

Abbreviation database := (gmap string table).
Abbreviation fsys := (gmap string database).

(** A parameter bound to a [?] placeholder. *)
Inductive pyval := PInt (z : Z) | PStr (s : string).

(** The three statement forms the module executes. *)
Inductive stmt :=
| CreateTableIfNotExists (t : string) (cols : list column)
| InsertValues (t : string) (cols : list string)
| SelectCountGroupBy (t : string) (keys : list string).

(** ** Binding parameters *)

Definition int64_min : Z := - 2 ^ 63.
Definition int64_max : Z := 2 ^ 63 - 1.

(** sqlite3 binds a Python int as a 64-bit INTEGER and refuses a larger one. *)
Definition bind_param (p : pyval) : res sqlval :=
  match p with
  | PInt z =>
      if decide (int64_min <= z <= int64_max)%Z then Ok (SInt z)
      else Exn (OverflowError "Python int too large to convert to SQLite INTEGER")
  | PStr s => Ok (SText s)
  end.

Fixpoint bind_params (ps : list pyval) : res (list sqlval) :=
  match ps with
  | [] => Ok []
  | p :: ps' =>
      match bind_param p, bind_params ps' with
      | Ok v, Ok vs => Ok (v :: vs)
      | Exn e, _ | _, Exn e => Exn e
      end
  end.

(** ** Executing one statement on a database *)

Definition col_index (cols : list column) (c : string) : option nat :=
  list_find (fun col => col_name col = c) cols ≫= fun '(i, _) => Some i.

Definition default_value (now : Z) (d : coldefault) : sqlval :=
  match d with DefNull => SNull | DefCurrentTimestamp => STimestamp now end.

(** The row an [INSERT] builds: a named column takes its parameter, the
    others their default. *)
Definition build_row (now : Z) (cols : list column) (names : list string)
    (vals : list sqlval) : list sqlval :=
  map (fun col =>
         match list_find (fun n => n = col_name col) names with
         | Some (i, _) => default SNull (vals !! i)
         | None => default_value now (col_default col)
         end) cols.

(** The grouping of [GROUP BY]: each distinct key with its number of rows,
    in order of first occurrence. *)
Section GroupCount.
Context `{EqDecision K}.

Fixpoint group_insert (k : K) (g : list (K * nat)) : list (K * nat) :=
  match g with
  | [] => [(k, 1)]
  | (k', n) :: g' => if decide (k = k') then (k', S n) :: g' else (k', n) :: group_insert k g'
  end.

Definition group_count (l : list K) : list (K * nat) :=
  foldl (fun g k => group_insert k g) [] l.

End GroupCount.

Fixpoint project (idxs : list nat) (row : list sqlval) : option (list sqlval) :=
  match idxs with
  | [] => Some []
  | i :: idxs' => v ← row !! i; vs ← project idxs' row; Some (v :: vs)
  end.

Definition no_such_table (t : string) : exn := OperationalError ("no such table: " +:+ t).

(** Binding checks the number of placeholders first, then converts each
    value. *)
Definition bind_all (placeholders : nat) (ps : list pyval) : res (list sqlval) :=
  if decide (length ps = placeholders) then bind_params ps
  else Exn (ProgrammingError "Incorrect number of bindings supplied").

(** [cursor.execute(sql, params)] on a database, at wall-clock second [now]:
    the statement is prepared (unknown table or column: [OperationalError]),
    its parameters bound, then it runs.  The result is the rows it returns
    and the new database; a failing statement leaves the database as it was. *)
Definition exec_stmt (now : Z) (st : stmt) (params : list pyval) (db : database)
    : res (list (list sqlval)) * database :=
  match st with
  | CreateTableIfNotExists t cols =>
      match bind_all 0 params with
      | Exn e => (Exn e, db)
      | Ok _ =>
          match db !! t with
          | Some _ => (Ok [], db)
          | None => (Ok [], <[t := Table cols []]> db)
          end
      end
  | InsertValues t names =>
      match db !! t with
      | None => (Exn (no_such_table t), db)
      | Some tb =>
          match list_find (fun n => col_index (tbl_cols tb) n = None) names with
          | Some (_, n) =>
              (Exn (OperationalError ("table " +:+ t +:+ " has no column named " +:+ n)), db)
          | None =>
              match bind_all (length names) params with
              | Exn e => (Exn e, db)
              | Ok vals =>
                  (Ok [], <[t := Table (tbl_cols tb)
                                  (tbl_rows tb ++ [build_row now (tbl_cols tb) names vals])]> db)
              end
          end
      end
  | SelectCountGroupBy t keys =>
      match db !! t with
      | None => (Exn (no_such_table t), db)
      | Some tb =>
          match mapM (col_index (tbl_cols tb)) keys with
          | None => (Exn (OperationalError "no such column"), db)
          | Some idxs =>
              match bind_all 0 params with
              | Exn e => (Exn e, db)
              | Ok _ =>
                  let ks := omap (project idxs) (tbl_rows tb) in
                  (Ok (map (fun '(k, n) => k ++ [SInt (Z.of_nat n)]) (group_count ks)), db)
              end
          end
      end
  end.

(** ** Connections and the [with conn:] block *)

(** A connection: the committed database and the open transaction's working
    copy, if a transaction is open. *)
Record conn := Conn { conn_db : database; conn_txn : option database }.

Definition is_dml (st : stmt) : bool :=
  match st with InsertValues _ _ => true | _ => false end.

(** [c.execute(sql, params)] followed by [fetchall()]: a DML statement
    outside a transaction first opens one ([BEGIN]); a statement inside a
    transaction works on the transaction's copy. *)
Definition execute (now : Z) (st : stmt) (params : list pyval) : PyM conn (list (list sqlval)) :=
  fun c =>
    let txn := if is_dml st then Some (default (conn_db c) (conn_txn c)) else conn_txn c in
    match txn with
    | Some w => let '(r, w') := exec_stmt now st params w in (r, Conn (conn_db c) (Some w'))
    | None => let '(r, d') := exec_stmt now st params (conn_db c) in (r, Conn d' None)
    end.

(** [conn.commit()] and the rollback of [__exit__] on an exception. *)
Definition commit : PyM conn unit :=
  fun c => (Ok tt, Conn (default (conn_db c) (conn_txn c)) None).

Definition rollback (c : conn) : conn := Conn (conn_db c) None.

(** [with sqlite3.connect(path) as conn: body]: connecting creates the file if
    it is absent; on normal exit the block commits, on an exception it rolls
    back and re-raises; the file then holds the committed database. *)
Definition with_connect {A} (path : string) (body : PyM conn A) : PyM fsys A :=
  fun fs =>
    let '(r, c) := body (Conn (default ∅ (fs !! path)) None) in
    let c' := match r with Ok _ => snd (commit c) | Exn _ => rollback c end in
    (r, <[path := conn_db c']> fs).

(** ** [GROUP BY ... COUNT( * )] *)

(** The contract of [GROUP BY k COUNT( * )]: every key of the rows appears
    exactly once, paired with the number of rows that have it. *)
Definition grouped_counts `{EqDecision K} (l : list K) (g : list (K * nat)) : Prop :=
  NoDup g.*1 ∧ ∀ k n, (k, n) ∈ g <-> k ∈ l ∧ n = occ k l.

Section GroupCountLemmas.
Context `{EqDecision K}.
Implicit Types (l : list K) (g : list (K * nat)).

(** The count recorded for [k]: the first entry with that key. *)
Fixpoint glookup (k : K) g : nat :=
  match g with
  | [] => 0
  | (k', n) :: g' => if decide (k = k') then n else glookup k g'
  end.

Lemma glookup_insert k k' g :
  glookup k' (group_insert k g) = glookup k' g + (if decide (k = k') then 1 else 0).
Proof.
  induction g as [|[k0 n] g IH]; simpl; case_decides; simpl; case_decides;
    rewrite ?IH; case_decides; try congruence; lia.
Qed.

Lemma group_insert_keys k g :
  (group_insert k g).*1 = if decide (k ∈ g.*1) then g.*1 else g.*1 ++ [k].
Proof.
  induction g as [|[k0 n] g IH]; simpl; [done|].
  case_decides; rewrite ?fmap_cons, ?IH; case_decides;
    rewrite ?fmap_cons, ?elem_of_cons in *; naive_solver.
Qed.

Lemma group_insert_sum k g : sum_list (group_insert k g).*2 = S (sum_list g.*2).
Proof.
  induction g as [|[k0 n] g IH]; [done|]. cbn [group_insert].
  case_decides; rewrite ?fmap_cons; cbn [sum_list snd id]; rewrite ?IH; lia.
Qed.

Lemma group_count_snoc l k : group_count (l ++ [k]) = group_insert k (group_count l).
Proof. unfold group_count. by rewrite foldl_app. Qed.

Lemma glookup_group_count k l : glookup k (group_count l) = occ k l.
Proof.
  induction l as [|k' l IH] using rev_ind; [done|].
  rewrite group_count_snoc, glookup_insert, IH, occ_app, occ_cons, occ_nil.
  case_decides; try congruence; lia.
Qed.

Lemma group_count_keys l k : k ∈ (group_count l).*1 <-> k ∈ l.
Proof.
  induction l as [|k' l IH] using rev_ind; [done|].
  rewrite group_count_snoc, group_insert_keys, elem_of_app, list_elem_of_singleton.
  case_decide; rewrite ?elem_of_app, ?list_elem_of_singleton; naive_solver.
Qed.

Lemma group_count_nodup l : NoDup (group_count l).*1.
Proof.
  induction l as [|k l IH] using rev_ind; [constructor|].
  rewrite group_count_snoc, group_insert_keys. case_decide; [done|].
  apply NoDup_app. split_and!; [done| |apply NoDup_singleton].
  intros x Hx ->%list_elem_of_singleton. done.
Qed.

Lemma glookup_elem_of k n g : NoDup g.*1 -> (k, n) ∈ g -> glookup k g = n.
Proof.
  induction g as [|[k0 n0] g IH]; simpl; [by rewrite elem_of_nil|].
  rewrite NoDup_cons, elem_of_cons. intros [Hk0 Hnd] [[= -> ->]|Hin].
  - by rewrite decide_True.
  - rewrite decide_False; [by apply IH|]. intros ->. apply Hk0.
    apply list_elem_of_fmap. by exists (k0, n).
Qed.

Lemma glookup_in k g : k ∈ g.*1 -> (k, glookup k g) ∈ g.
Proof.
  induction g as [|[k0 n0] g IH]; simpl; [by rewrite elem_of_nil|].
  rewrite elem_of_cons. case_decide; subst; [intros; by left|].
  intros [->|Hin]; [done|]. right. by apply IH.
Qed.

End GroupCountLemmas.

Section GroupCountRename.
Context `{EqDecision K, EqDecision K'} (f : K -> K') `{!Inj (=) (=) f}.
Implicit Types (l : list K) (g : list (K * nat)).

(** Grouping commutes with an injective renaming of the keys. *)
Lemma group_insert_fmap k g :
  group_insert (f k) (prod_map f id <$> g) = prod_map f id <$> group_insert k g.
Proof.
  induction g as [|[k' n] g IH]; [done|]. cbn [group_insert fmap list_fmap prod_map id].
  destruct (decide (k = k')) as [->|Hne]; [by rewrite decide_True|].
  rewrite decide_False by (by intros ?%(inj f)). by rewrite IH.
Qed.

Lemma group_count_fmap l :
  group_count (f <$> l) = prod_map f id <$> group_count l.
Proof.
  induction l as [|k l IH] using rev_ind; [done|].
  by rewrite fmap_app, fmap_cons, fmap_nil, !group_count_snoc, IH, group_insert_fmap.
Qed.

End GroupCountRename.

Section GroupCountSpec.
Context `{EqDecision K}.
Implicit Types (l : list K) (g : list (K * nat)).

(** the grouping the model computes meets the contract of [GROUP BY]. *)
Theorem group_count_spec l : grouped_counts l (group_count l).
Proof.
  split; [apply group_count_nodup|]. intros k n. split.
  - intros Hin. split.
    + apply group_count_keys, list_elem_of_fmap. by exists (k, n).
    + rewrite <- glookup_group_count. symmetry.
      apply glookup_elem_of; [apply group_count_nodup|done].
  - intros [Hk ->]. rewrite <- glookup_group_count.
    apply glookup_in, group_count_keys, Hk.
Qed.



(** Every row is counted once: the counts add up to the number of rows. *)
Lemma group_count_total l : sum_list (group_count l).*2 = length l.
Proof.
  induction l as [|k l IH] using rev_ind; [done|].
  rewrite group_count_snoc, group_insert_sum, IH, length_app. simpl. lia.
Qed.

End GroupCountSpec.

(** ** Running a [with] block of one statement *)

(** One DML statement then [commit]: the file holds the statement's result
    when it succeeds and is unchanged (but created) when it raises. *)
Lemma with_dml_commit_run path now st ps fs :
  is_dml st = true ->
  with_connect path (_ ← execute now st ps; commit) fs =
  let db := default ∅ (fs !! path) in
  match exec_stmt now st ps db with
  | (Ok _, db') => (Ok tt, <[path := db']> fs)
  | (Exn e, _) => (Exn e, <[path := db]> fs)
  end.
Proof.
  intros Hd. unfold with_connect, mbind, py_bind, execute, commit. rewrite Hd. simpl.
  by destruct (exec_stmt _ _ _ _) as [[] ?].
Qed.

(** A statement that is not DML runs in autocommit mode: the file holds
    whatever it left, whether or not it raised. *)
Lemma with_ddl_run path now st ps fs :
  is_dml st = false ->
  with_connect path (execute now st ps) fs =
  let '(r, db') := exec_stmt now st ps (default ∅ (fs !! path)) in (r, <[path := db']> fs).
Proof.
  intros Hd. unfold with_connect, mbind, py_bind, execute, commit. rewrite Hd. simpl.
  by destruct (exec_stmt _ _ _ _) as [[] ?].
Qed.

Lemma with_ddl_commit_run path now st ps fs :
  is_dml st = false ->
  with_connect path (_ ← execute now st ps; commit) fs =
  let '(r, db') := exec_stmt now st ps (default ∅ (fs !! path)) in
  (match r with Ok _ => Ok tt | Exn e => Exn e end, <[path := db']> fs).
Proof.
  intros Hd. unfold with_connect, mbind, py_bind, execute, commit. rewrite Hd. simpl.
  by destruct (exec_stmt _ _ _ _) as [[] ?].
Qed.

(** A failing statement leaves the database as it was. *)
Lemma exec_stmt_exn now st ps db e db' :
  exec_stmt now st ps db = (Exn e, db') -> db' = db.
Proof.
  unfold exec_stmt. intros H.
  repeat (case_match; simplify_eq; try done).
Qed.

(** A [SELECT] changes nothing. *)
Lemma exec_select_db now t keys ps db :
  snd (exec_stmt now (SelectCountGroupBy t keys) ps db) = db.
Proof. unfold exec_stmt. by repeat case_match. Qed.

(** An [INSERT] into an existing table with known columns and well-bound
    parameters appends exactly the row it builds. *)
Lemma exec_insert_ok now t names ps db tb vals :
  db !! t = Some tb ->
  Forall (fun n => is_Some (col_index (tbl_cols tb) n)) names ->
  bind_all (length names) ps = Ok vals ->
  exec_stmt now (InsertValues t names) ps db =
  (Ok [], <[t := Table (tbl_cols tb) (tbl_rows tb ++ [build_row now (tbl_cols tb) names vals])]> db).
Proof.
  intros Ht Hcols Hb. unfold exec_stmt. rewrite Ht, Hb.
  destruct (list_find _ _) as [[i n]|] eqn:Hf; [|done].
  apply list_find_Some in Hf as (Hi & Hn & _).
  rewrite Forall_lookup in Hcols. destruct (Hcols _ _ Hi) as [j Hj]. congruence.
Qed.

Lemma exec_create_ok now t cols db :
  exec_stmt now (CreateTableIfNotExists t cols) [] db =
  (Ok [], match db !! t with Some _ => db | None => <[t := Table cols []]> db end).
Proof. unfold exec_stmt. simpl. by destruct (db !! t). Qed.

(** A [with] block writes only the file it connects to. *)
Lemma with_connect_other {A} path (body : PyM conn A) fs p :
  p ≠ path -> (with_connect path body fs).2 !! p = fs !! p.
Proof. intros Hp. unfold with_connect. destruct (body _) as [r c]. simpl. by rewrite lookup_insert_ne. Qed.

(** A query changes no table: the file holds what it held, or the empty
    database connecting created. *)
Lemma with_select_fs path now t keys ps fs :
  (with_connect path (execute now (SelectCountGroupBy t keys) ps) fs).2 =
  <[path := default ∅ (fs !! path)]> fs.
Proof.
  rewrite with_ddl_run by done. pose proof (exec_select_db now t keys ps (default ∅ (fs !! path))) as H.
  destruct (exec_stmt _ _ _ _) as [r db']. simpl in *. by subst.
Qed.

Lemma bind_params_app_int z ps vs :
  (int64_min <= z <= int64_max)%Z -> bind_params ps = Ok vs ->
  bind_params (PInt z :: ps) = Ok (SInt z :: vs).
Proof. intros Hz Hps. simpl. rewrite decide_True by done. by rewrite Hps. Qed.


