(* ===== verification/Discord.v ===== *)
(** * Discord: the part of discord.py the handlers call

    An application-command interaction carries the invoking user and is
    answered through [interaction.response] exactly once: either
    [send_message] (a visible reply) or [defer] (a "thinking" placeholder);
    a second answer raises [InteractionResponded].  After an answer, further
    messages go through the webhook [interaction.followup.send]; before one,
    the webhook does not exist yet and Discord rejects the request.  Discord
    refuses a message longer than 2000 characters with an HTTP 400, which
    discord.py raises as [HTTPException]; a failed request changes nothing. *)

From S2P Require Import Prelude PyCore.

Record user := User { user_id : Z; user_name : string }.

(** [InteractionResponse._response_type] once the interaction is answered. *)
Inductive response_kind := RespMessage | RespDeferred.

#[export] Instance response_kind_eq_dec : EqDecision response_kind.
Proof. solve_decision. Defined.

(** The interaction as the handler sees it, with the messages Discord has
    delivered for it, in order (the reply first, then the followups). *)
Record interaction := Interaction {
  ia_user : user;
  ia_response : option response_kind;
  ia_messages : list string
}.

(** A fresh interaction from [user], not answered yet. *)
Definition new_interaction (u : user) : interaction := Interaction u None [].

(** The interaction once [msg] was sent as its reply. *)
Definition answered (ia : interaction) (msg : string) : interaction :=
  Interaction (ia_user ia) (Some RespMessage) (ia_messages ia ++ [msg]).

Definition message_limit : nat := 2000.

Definition too_long : exn :=
  HTTPException "400 Bad Request (error code: 50035): Invalid Form Body: content: Must be 2000 or fewer in length.".

Definition unknown_webhook : exn :=
  HTTPException "404 Not Found (error code: 10015): Unknown Webhook".

(** [await interaction.response.send_message(msg)]. *)
Definition send_message (msg : string) : PyM interaction unit :=
  fun ia =>
    match ia_response ia with
    | Some _ => (Exn InteractionResponded, ia)
    | None =>
        if decide (String.length msg <= message_limit) then
          (Ok tt, answered ia msg)
        else (Exn too_long, ia)
    end.

(** [await interaction.response.defer()]. *)
Definition defer : PyM interaction unit :=
  fun ia =>
    match ia_response ia with
    | Some _ => (Exn InteractionResponded, ia)
    | None => (Ok tt, Interaction (ia_user ia) (Some RespDeferred) (ia_messages ia))
    end.

(** [await interaction.followup.send(msg)]. *)
Definition followup_send (msg : string) : PyM interaction unit :=
  fun ia =>
    match ia_response ia with
    | None => (Exn unknown_webhook, ia)
    | Some _ =>
        if decide (String.length msg <= message_limit) then
          (Ok tt, Interaction (ia_user ia) (ia_response ia) (ia_messages ia ++ [msg]))
        else (Exn too_long, ia)
    end.
