(* ===== verification/Browser.v ===== *)
(** * Browser: the part of Selenium the [lookup] handler drives

    The web is outside the program: the class [Web] says what Chrome and the
    site do (whether the driver starts, whether a page loads, the DOM of a
    page at each instant, whether [quit] fails), and every lemma about the
    scraper holds for every instance.  The program's side is the session
    state: the local variable [driver] of the running [lookup] (unbound until
    [webdriver.Chrome(...)] returns), the page it shows, the sessions
    launched and the [quit] calls made.  Time is the wall clock in
    milliseconds; only [WebDriverWait.until] lets it pass, sleeping 500 ms
    between polls for at most its 10 s timeout.  [sessions_closed] says
    that every session started was quit; the triples of the session
    operations are the steps of the proof that no [lookup] leaves one
    running. *)

From S2P Require Import Prelude PyCore.

(** ** The DOM *)

(** An element: tag, attributes, rendered text ([element.text]) and
    children. *)
Inductive node := Elem (tag : string) (attrs : list (string * string)) (text : string) (kids : list node).

Definition node_tag (n : node) : string := let '(Elem t _ _ _) := n in t.
Definition node_text (n : node) : string := let '(Elem _ _ x _) := n in x.
Definition node_kids (n : node) : list node := let '(Elem _ _ _ ks) := n in ks.

(** [element.get_attribute(a)]: [None] when the attribute is absent. *)
Definition get_attribute (a : string) (n : node) : option string :=
  let '(Elem _ attrs _ _) := n in (list_find (fun p => p.1 = a) attrs) ≫= fun '(_, p) => Some p.2.

(** The elements of a document in document order (preorder). *)
Fixpoint nodes (n : node) : list node :=
  match n with
  | Elem _ _ _ kids =>
      n :: (fix go (ks : list node) : list node :=
              match ks with [] => [] | k :: ks' => nodes k ++ go ks' end) kids
  end.

(** The XPath [//div[@class='value' and not(strong)]] of line 131: a [div]
    whose [class] attribute is exactly ["value"] and which has no [strong]
    child. *)
Definition is_bio_div (n : node) : bool :=
  bool_decide (node_tag n = "div") &&
  bool_decide (get_attribute "class" n = Some "value") &&
  forallb (fun k => negb (bool_decide (node_tag k = "strong"))) (node_kids n).

(** [By.CLASS_NAME, "profile-avatar"] of line 139, which Selenium sends as
    the CSS selector [.profile-avatar]: the class attribute, split at
    whitespace, contains the name. *)
Definition has_class (c : string) (n : node) : bool :=
  match get_attribute "class" n with
  | Some v => bool_decide (c ∈ String.words v)
  | None => false
  end.

(** [driver.find_element(by, value)]: the first match in document order; the
    [NoSuchElementException] it raises otherwise is ignored by
    [WebDriverWait], so it is [None] here. *)
Definition find_element (p : node -> bool) (doc : node) : option node :=
  head (filter (fun n => p n = true) (nodes doc)).

(** ** [WebDriverWait(driver, 10).until(...)] *)

Definition poll_ms : Z := 500.
Definition timeout_ms : Z := 10000.

(** The loop of [until]: probe; on success return; else sleep [poll_ms] and
    give up once the clock is past [end_t].  [fuel] bounds the number of
    sleeps; 20 is enough for a 10 s timeout ([until_loop_fuel]). *)
Fixpoint until_loop {A} (fuel : nat) (probe : Z -> option A) (end_t t : Z) : res A * Z :=
  match probe t with
  | Some v => (Ok v, t)
  | None =>
      let t' := (t + poll_ms)%Z in
      if decide (end_t < t')%Z then (Exn (TimeoutException ""), t')
      else match fuel with
           | O => (Exn (TimeoutException ""), t')
           | S f => until_loop f probe end_t t'
           end
  end.

Definition until_fuel : nat := 20.

Definition wait_until {A} (probe : Z -> option A) (t0 : Z) : res A * Z :=
  until_loop until_fuel probe (t0 + timeout_ms)%Z t0.

(** The reference behaviour: the instants [until] probes, and the first of
    them at which the probe succeeds. *)
Definition poll_times (t0 : Z) : list Z := map (fun k => t0 + poll_ms * Z.of_nat k)%Z (seq 0 21).

Fixpoint first_hit {A} (probe : Z -> option A) (ts : list Z) : option (A * Z) :=
  match ts with
  | [] => None
  | t :: ts' => match probe t with Some v => Some (v, t) | None => first_hit probe ts' end
  end.

Definition until_ref {A} (probe : Z -> option A) (t0 : Z) : res A * Z :=
  match first_hit probe (poll_times t0) with
  | Some (v, t) => (Ok v, t)
  | None => (Exn (TimeoutException ""), t0 + timeout_ms + poll_ms)%Z
  end.

Arguments until_ref : simpl never.

(** The polls from the [k]-th on, of a wait started at [t0]. *)
Definition poll_from (t0 : Z) (k : nat) : list Z :=
  map (fun j => t0 + poll_ms * Z.of_nat j)%Z (seq k (21 - k)).

(** The outcome of a wait started at [t0], from its first hit. *)
Definition hit_result {A} (t0 : Z) (o : option (A * Z)) : res A * Z :=
  match o with
  | Some (v, t) => (Ok v, t)
  | None => (Exn (TimeoutException ""), t0 + timeout_ms + poll_ms)%Z
  end.

(** ** Chrome and the site *)

Class Web := {
  (** [webdriver.Chrome(service=..., options=...)]: [Some e] if it raises *)
  web_launch : option exn;
  (** [driver.get(url)]: [Some e] if it raises *)
  web_load : string -> option exn;
  (** the document of a page at each instant *)
  web_page : string -> Z -> node;
  (** the [n]-th [driver.quit()] of a session: [Some e] if it raises *)
  web_quit : nat -> option exn
}.

(** ** The session state *)

Record browser := Browser {
  br_driver : option nat;
  br_page : option string;
  br_launched : nat;
  br_quits : list nat
}.

(** The state a lookup starts in: no [driver] bound yet. *)
Definition browser_frame (b : browser) : browser :=
  Browser None None (br_launched b) (br_quits b).

Definition unbound_driver : exn :=
  UnboundLocalError "cannot access local variable 'driver' where it is not associated with a value".

(** How often session [d] was quit. *)
Definition quits_of (d : nat) (b : browser) : nat := occ d (br_quits b).

Section Ops.
Context `{Web}.

(** [driver = webdriver.Chrome(service=service, options=options)]. *)
Definition chrome_launch : PyM (Z * browser) unit :=
  fun '(t, b) =>
    match web_launch with
    | Some e => (Exn e, (t, b))
    | None => (Ok tt, (t, Browser (Some (br_launched b)) None (S (br_launched b)) (br_quits b)))
    end.

(** [driver.get(url)]. *)
Definition driver_get (url : string) : PyM (Z * browser) unit :=
  fun '(t, b) =>
    match br_driver b with
    | None => (Exn unbound_driver, (t, b))
    | Some d =>
        match web_load url with
        | Some e => (Exn e, (t, b))
        | None => (Ok tt, (t, Browser (Some d) (Some url) (br_launched b) (br_quits b)))
        end
    end.

(** [wait.until(EC.presence_of_element_located(locator))] on the current
    page. *)
Definition wait_presence (p : node -> bool) : PyM (Z * browser) node :=
  fun '(t, b) =>
    match br_driver b, br_page b with
    | None, _ => (Exn unbound_driver, (t, b))
    | Some _, None => (Exn (TimeoutException ""), (t + timeout_ms + poll_ms, b))%Z
    | Some _, Some url =>
        let '(r, t') := wait_until (fun s => find_element p (web_page url s)) t in (r, (t', b))
    end.

(** [driver.quit()]: recorded whether or not it raises. *)
Definition driver_quit : PyM (Z * browser) unit :=
  fun '(t, b) =>
    match br_driver b with
    | None => (Exn unbound_driver, (t, b))
    | Some d =>
        let b' := Browser (Some d) (br_page b) (br_launched b) (br_quits b ++ [d]) in
        match web_quit (quits_of d b) with
        | Some e => (Exn e, (t, b'))
        | None => (Ok tt, (t, b'))
        end
    end.

End Ops.

(** ** Sessions left running *)

(** Every Chrome session started so far was quit. *)
Definition sessions_closed (b : browser) : Prop :=
  ∀ d, d < br_launched b -> d ∈ br_quits b.

(** Every session started so far was quit, except possibly the one
    [driver] refers to. *)
Definition sessions_open_ok (b : browser) : Prop :=
  ∀ d, d < br_launched b -> d ∈ br_quits b ∨ br_driver b = Some d.

(** ** Failures of the session operations *)

(** Chrome and the site fail with Selenium's exceptions, which are all
    subclasses of [Exception]. *)
Definition web_exceptions `{Web} : Prop :=
  (∀ e, web_launch = Some e -> is_Exception e = true) ∧
  (∀ url e, web_load url = Some e -> is_Exception e = true) ∧
  (∀ n e, web_quit n = Some e -> is_Exception e = true).

(** ** Locators *)

Lemma find_element_spec p doc n : find_element p doc = Some n -> p n = true ∧ n ∈ nodes doc.
Proof.
  unfold find_element. intros Hn. apply head_Some_elem_of, list_elem_of_filter in Hn. naive_solver.
Qed.

(** ** [until]: termination, reference behaviour, bounds *)

Section Until.
Context {A : Type} (probe : Z -> option A) (t0 : Z).

Lemma poll_from_cons k : k <= 20 -> poll_from t0 k = (t0 + poll_ms * Z.of_nat k)%Z :: poll_from t0 (S k).
Proof. intros Hk. unfold poll_from. replace (21 - k) with (S (20 - k)) by lia. done. Qed.

(** From the [k]-th poll on, with enough fuel left, the loop returns the
    first hit among the remaining polls. *)
Lemma until_loop_from fuel k :
  k <= 20 -> 20 - k <= fuel ->
  until_loop fuel probe (t0 + timeout_ms) (t0 + poll_ms * Z.of_nat k)%Z =
  hit_result t0 (first_hit probe (poll_from t0 k)).
Proof.
  revert k. induction fuel as [|fuel IH]; intros k Hk Hf;
    rewrite (poll_from_cons k Hk); simpl; destruct (probe _) as [v|]; try done;
    unfold poll_ms, timeout_ms in *.
  - assert (k = 20) as -> by lia. rewrite decide_True by lia. done.
  - destruct (decide (k = 20)) as [->|Hk20].
    + rewrite decide_True by lia. done.
    + rewrite decide_False by lia.
      replace (t0 + 500 * Z.of_nat k + 500)%Z with (t0 + poll_ms * Z.of_nat (S k))%Z
        by (unfold poll_ms; lia).
      apply IH; lia.
Qed.

(** [WebDriverWait.until] terminates within its fuel and equals its
    reference behaviour: it returns the element found at the first of the 21
    polls (every 500 ms from 0 to 10 s) that finds one, at that instant, and
    otherwise raises [TimeoutException] at 10.5 s; any fuel of at least 20
    gives the same result. *)
Lemma until_loop_ref fuel :
  20 <= fuel -> until_loop fuel probe (t0 + timeout_ms)%Z t0 = until_ref probe t0.
Proof.
  intros Hf. pose proof (until_loop_from fuel 0 ltac:(lia) ltac:(lia)) as H.
  rewrite Z.mul_0_r, Z.add_0_r in H. rewrite H. unfold until_ref. done.
Qed.

Lemma wait_until_ref : wait_until probe t0 = until_ref probe t0.
Proof. apply until_loop_ref. unfold until_fuel. lia. Qed.


(** A wait raises nothing but [TimeoutException]. *)
Lemma wait_until_raises e : (wait_until probe t0).1 = Exn e -> e = TimeoutException "".
Proof.
  rewrite wait_until_ref. unfold until_ref.
  destruct (first_hit probe (poll_times t0)) as [[v t]|]; simpl; [done|by intros [= <-]].
Qed.

End Until.

Lemma quits_of_fresh d b : d ∉ br_quits b -> quits_of d b = 0.
Proof. apply occ_fresh. Qed.

Lemma quits_of_snoc d b d' : quits_of d (Browser d' (br_page b) (br_launched b) (br_quits b ++ [d])) = S (quits_of d b).
Proof. unfold quits_of. simpl. rewrite occ_app, occ_cons, occ_nil, decide_True by done. lia. Qed.

Lemma sessions_closed_open_ok b : sessions_closed b -> sessions_open_ok b.
Proof. intros H d Hd. left. by apply H. Qed.

Section SessionOps.
Context `{Web}.

Lemma chrome_launch_open :
  ⦃ fun p : Z * browser => sessions_closed p.2 ⦄ chrome_launch ⦃ fun p => sessions_open_ok p.2 ⦄.
Proof.
  intros [t b] Hb. unfold chrome_launch. destruct web_launch; simpl; [by apply sessions_closed_open_ok|].
  intros d Hd. simpl in *. destruct (decide (d = br_launched b)) as [->|Hne]; [by right|left; apply Hb; lia].
Qed.

Lemma driver_get_open url :
  ⦃ fun p : Z * browser => sessions_open_ok p.2 ⦄ driver_get url ⦃ fun p => sessions_open_ok p.2 ⦄.
Proof.
  intros [t [drv pg n qs]] Hb. unfold driver_get, sessions_open_ok in *. simpl in *.
  repeat case_match; simplify_eq/=; eauto.
Qed.

Lemma wait_presence_open pr :
  ⦃ fun p : Z * browser => sessions_open_ok p.2 ⦄ wait_presence pr ⦃ fun p => sessions_open_ok p.2 ⦄.
Proof. intros [t b] Hb. unfold wait_presence. by repeat case_match; simplify_eq. Qed.

(** [driver.quit()] closes the one session that may be open. *)
Lemma driver_quit_closed :
  ⦃ fun p : Z * browser => sessions_open_ok p.2 ⦄ driver_quit ⦃ fun p => sessions_closed p.2 ⦄.
Proof.
  intros [t [drv pg n qs]] Hb. unfold driver_quit. simpl in *.
  assert (Hq : ∀ d' d, drv = Some d' -> d < n -> d ∈ qs ++ [d']).
  { intros d' d -> Hd. rewrite elem_of_app, list_elem_of_singleton.
    destruct (Hb d Hd) as [?|[= ->]]; auto. }
  destruct drv as [d'|]; [case_match; intros d Hd; by apply (Hq d')|].
  intros d Hd. by destruct (Hb d Hd).
Qed.

Lemma driver_quit_open :
  ⦃ fun p : Z * browser => sessions_open_ok p.2 ⦄ driver_quit ⦃ fun p => sessions_open_ok p.2 ⦄.
Proof. intros p Hp. by apply sessions_closed_open_ok, driver_quit_closed. Qed.

Section Failures.
Context (Hweb : web_exceptions).

Lemma chrome_launch_exn : raises_Exceptions chrome_launch.
Proof.
  destruct Hweb as (Hl & _ & _). intros [t b]. unfold chrome_launch.
  destruct web_launch eqn:E; simpl; [by apply Hl|done].
Qed.

Lemma driver_get_exn url : raises_Exceptions (driver_get url).
Proof.
  destruct Hweb as (_ & Hg & _). intros [t b]. unfold driver_get.
  destruct (br_driver b); simpl; [|done]. destruct (web_load url) eqn:E; simpl; [by eapply Hg|done].
Qed.

Lemma driver_quit_exn : raises_Exceptions driver_quit.
Proof.
  destruct Hweb as (_ & _ & Hq). intros [t b]. unfold driver_quit.
  destruct (br_driver b); simpl; [|done]. destruct (web_quit _) eqn:E; simpl; [by eapply Hq|done].
Qed.

End Failures.

Lemma wait_presence_exn pr : raises_Exceptions (wait_presence pr).
Proof.
  intros [t b]. unfold wait_presence. destruct (br_driver b), (br_page b) as [url|]; simpl; try done.
  pose proof (wait_until_raises (fun s => find_element pr (web_page url s)) t) as He.
  destruct (wait_until _ t) as [[v|e] t'] eqn:E; simpl in *; [done|]. by rewrite (He e).
Qed.

End SessionOps.
