(* ===== verification/World.v ===== *)
(** * World: the state the module's code runs on

    One record gathers what the handlers read and change: the SQLite files,
    the wall clock (milliseconds), the log lines written through [logger],
    the interaction being handled and the Selenium session.  Lenses run an
    operation of [Sqlite], [Discord] or [Browser] on its part of it. *)

From S2P Require Import Prelude PyCore Sqlite Discord Browser.

Inductive level := INFO | ERROR.

#[export] Instance level_eq_dec : EqDecision level.
Proof. solve_decision. Defined.

Record world := World {
  w_fs : fsys;
  w_clock : Z;
  w_log : list (level * string);
  w_ia : interaction;
  w_br : browser
}.

Definition fs_l : lens world fsys :=
  Lens w_fs (fun fs w => World fs (w_clock w) (w_log w) (w_ia w) (w_br w)).
Definition ia_l : lens world interaction :=
  Lens w_ia (fun ia w => World (w_fs w) (w_clock w) (w_log w) ia (w_br w)).
Definition web_l : lens world (Z * browser) :=
  Lens (fun w => (w_clock w, w_br w)) (fun '(t, b) w => World (w_fs w) t (w_log w) (w_ia w) b).

(** A database operation at the current second ([CURRENT_TIMESTAMP] has
    second resolution). *)
Definition sql {A} (m : Z -> PyM fsys A) : PyM world A :=
  fun w => zoom fs_l (m (w_clock w / 1000)%Z) w.

Definition discord {A} (m : PyM interaction A) : PyM world A := zoom ia_l m.

Definition selenium {A} (m : PyM (Z * browser) A) : PyM world A := zoom web_l m.

(** [logger.info(msg)] and [logger.error(msg)]. *)
Definition log (lvl : level) (msg : string) : PyM world unit :=
  modify (fun w => World (w_fs w) (w_clock w) (w_log w ++ [(lvl, msg)]) (w_ia w) (w_br w)).

Definition set_fs (fs : fsys) (w : world) : world :=
  World fs (w_clock w) (w_log w) (w_ia w) (w_br w).

Definition set_ia (ia : interaction) (w : world) : world :=
  World (w_fs w) (w_clock w) (w_log w) ia (w_br w).

(** Conditions on one part of the world. *)
Definition on_fs (Q : fsys -> Prop) (w : world) : Prop := Q (w_fs w).
Definition on_br (Q : browser -> Prop) (w : world) : Prop := Q (w_br w).

#[export] Instance fs_l_laws : LensLaws fs_l.
Proof. split; by intros; repeat match goal with w : world |- _ => destruct w end. Qed.

#[export] Instance ia_l_laws : LensLaws ia_l.
Proof. split; by intros; repeat match goal with w : world |- _ => destruct w end. Qed.

#[export] Instance web_l_laws : LensLaws web_l.
Proof.
  split; intros; repeat match goal with w : world |- _ => destruct w | p : _ * _ |- _ => destruct p end;
    done.
Qed.

(** Replying to an interaction not answered yet. *)
Lemma reply_ok msg w :
  ia_response (w_ia w) = None -> String.length msg <= message_limit ->
  discord (send_message msg) w = (Ok tt, set_ia (answered (w_ia w) msg) w).
Proof.
  intros Hr Hl. unfold discord, zoom, send_message. simpl. rewrite Hr.
  by rewrite decide_True.
Qed.

Lemma reply_too_long msg w :
  ia_response (w_ia w) = None -> message_limit < String.length msg ->
  discord (send_message msg) w = (Exn too_long, w).
Proof.
  intros Hr Hl. unfold discord, zoom, send_message. simpl. rewrite Hr.
  rewrite decide_False by lia. by destruct w.
Qed.

(** A reply that went through was the message itself, appended. *)
Lemma reply_sent msg w w' :
  discord (send_message msg) w = (Ok tt, w') -> w' = set_ia (answered (w_ia w) msg) w.
Proof.
  unfold discord, zoom, send_message. simpl.
  destruct (ia_response (w_ia w)); [done|]. case_decide; by intros [=].
Qed.

Lemma sql_run {A} (m : Z -> PyM fsys A) w :
  sql m w = ((m (w_clock w / 1000)%Z (w_fs w)).1, set_fs (m (w_clock w / 1000)%Z (w_fs w)).2 w).
Proof. unfold sql. by rewrite run_zoom. Qed.

(** ** Frames: the operations that cannot change a part of the world *)

Lemma hoare_sql_br {A} Q (m : Z -> PyM fsys A) : ⦃ on_br Q ⦄ sql m ⦃ on_br Q ⦄.
Proof. intros w Hw. by apply (hoare_zoom_frame fs_l (on_br Q)). Qed.

(** A database operation keeps a condition on the files that each of its
    runs keeps. *)
Lemma hoare_sql_fs {A} Q (m : Z -> PyM fsys A) :
  (∀ now fs, Q fs -> Q (m now fs).2) -> ⦃ on_fs Q ⦄ sql m ⦃ on_fs Q ⦄.
Proof. intros HQ w Hw. rewrite sql_run. by apply HQ. Qed.


Lemma hoare_discord_br {A} Q (m : PyM interaction A) : ⦃ on_br Q ⦄ discord m ⦃ on_br Q ⦄.
Proof. by apply hoare_zoom_frame. Qed.

Lemma hoare_discord_fs {A} Q (m : PyM interaction A) : ⦃ on_fs Q ⦄ discord m ⦃ on_fs Q ⦄.
Proof. by apply hoare_zoom_frame. Qed.

Lemma hoare_selenium_fs {A} Q (m : PyM (Z * browser) A) : ⦃ on_fs Q ⦄ selenium m ⦃ on_fs Q ⦄.
Proof. apply hoare_zoom_frame. by intros [t b] w. Qed.

Lemma hoare_log_br Q lvl msg : ⦃ on_br Q ⦄ log lvl msg ⦃ on_br Q ⦄.
Proof. by apply hoare_modify. Qed.

Lemma hoare_log_fs Q lvl msg : ⦃ on_fs Q ⦄ log lvl msg ⦃ on_fs Q ⦄.
Proof. by apply hoare_modify. Qed.

(** A Selenium operation with a triple on the session state. *)
Lemma hoare_selenium_br {A} Q Q' (m : PyM (Z * browser) A) :
  ⦃ fun p : Z * browser => Q p.2 ⦄ m ⦃ fun p => Q' p.2 ⦄ -> ⦃ on_br Q ⦄ selenium m ⦃ on_br Q' ⦄.
Proof. intros Hm. apply (hoare_zoom web_l _ _ _ _ _ (fun w H => H) Hm). by intros w [t b]. Qed.

#[export] Hint Resolve hoare_sql_br hoare_discord_br hoare_discord_fs hoare_selenium_fs
  hoare_log_br hoare_log_fs : hoare.

(** Evaluate a handler on the world as far as its inputs allow. *)
Ltac run_w :=
  cbv [sql discord selenium log fs_l ia_l web_l mbind py_bind mret py_ret raise get put modify
       gets try_except try_finally zoom lget lset];
  cbn -[quits_of wait_until].
