(* ===== verification/Fixtures.v ===== *)
(** * Fixtures: concrete inputs on which the theorems are instantiated

    A Discord user, a fresh interaction, a world built around a given set
    of SQLite files, an RSI profile page and three behaviours of Chrome and
    the site: everything works, Chrome cannot be started, the page does not
    load.  The witnesses of the theorems evaluate the handlers on these. *)

From S2P Require Import Prelude PyCore Sqlite Discord Browser World.

Definition demo_user : user := User 123456789 "Ace".

(** The world at 12:00:05 on a given set of files, with no interaction
    answered yet and no browser session started. *)
Definition demo_world (fs : fsys) : world :=
  World fs 1700000005000 [] (new_interaction demo_user) (Browser None None 0 []).

(** A profile page: the bio [div] (with surrounding whitespace) and the
    avatar image; a second [div.value] with a [strong] child is skipped by
    the XPath. *)
Definition demo_page : node :=
  Elem "html" [] "" [
    Elem "div" [("class", "value")] "Handle" [Elem "strong" [] "Handle" []];
    Elem "div" [("class", "value")] "  Bounty hunter out of Stanton  " [];
    Elem "img" [("class", "thumb profile-avatar"); ("src", "https://rsi.example/a.jpg")] "" []].

(** Everything works and the page is there from the start. *)
Definition web_up : Web := {|
  web_launch := None;
  web_load := fun _ => None;
  web_page := fun _ _ => demo_page;
  web_quit := fun _ => None
|}.

(** Chrome cannot be started. *)
Definition web_no_chrome : Web := {|
  web_launch := Some (WebDriverException "unknown error: cannot find Chrome binary");
  web_load := fun _ => None;
  web_page := fun _ _ => demo_page;
  web_quit := fun _ => None
|}.

(** Chrome starts but the site does not answer. *)
Definition web_no_page : Web := {|
  web_launch := None;
  web_load := fun _ => Some (WebDriverException "unknown error: net::ERR_NAME_NOT_RESOLVED");
  web_page := fun _ _ => demo_page;
  web_quit := fun _ => None
|}.

(** The page is scraped but the first [driver.quit()] fails. *)
Definition web_bad_quit : Web := {|
  web_launch := None;
  web_load := fun _ => None;
  web_page := fun _ _ => demo_page;
  web_quit := fun n => match n with 0 => Some (WebDriverException "chrome not reachable") | _ => None end
|}.
