(* ===== verification/Persistence.v ===== *)
(** * Persistence: [init_db] and [award_token] on [tokens.db]

    [init_db] (l. 42-51) creates the table [awarded_tokens] if it is absent;
    [award_token] (l. 61-66) inserts one award whose [awarded_by] is the name
    of the interaction's user and whose [timestamp] is the store's
    [CURRENT_TIMESTAMP].  Both run in a [with sqlite3.connect('tokens.db')]
    block and commit.  [log_kill], which [logkill] calls (l. 81), is defined
    nowhere in the repository; [spec_record_kill] models the operation
    [recordKill] the specification gives it, so that the handler can be
    studied with and without it.

    The abstract view [awards] reads the award log back as a list of
    records; [award_token] refines "append one record" on it. *)

From S2P Require Import Prelude PyCore Sqlite Discord World Fixtures.

Definition tokens_db : string := "tokens.db".
Definition kill_log_db : string := "kill_log.db".

(** The columns of [CREATE TABLE IF NOT EXISTS awarded_tokens (...)]. *)
Definition awarded_tokens_cols : list column :=
  [Column "user_id" "INTEGER" DefNull; Column "awarded_by" "TEXT" DefNull;
   Column "reason" "TEXT" DefNull; Column "timestamp" "DATETIME" DefCurrentTimestamp].

Definition init_db : PyM world unit :=
  sql (fun now => with_connect tokens_db (
    _ ← execute now (CreateTableIfNotExists "awarded_tokens" awarded_tokens_cols) [];
    commit)).

(** [with sqlite3.connect(path) as conn: c.execute("INSERT ...", ps);
    conn.commit()]. *)
Definition insert_row (path t : string) (names : list string) (ps : list pyval) : PyM world unit :=
  sql (fun now => with_connect path (_ ← execute now (InsertValues t names) ps; commit)).

Definition award_token (uid : Z) (ia : interaction) (reason : string) : PyM world unit :=
  insert_row tokens_db "awarded_tokens" ["user_id"; "awarded_by"; "reason"]
    [PInt uid; PStr (user_name (ia_user ia)); PStr reason].

(** The columns the query of l. 93 reads from [kills]. *)
Definition kills_cols : list column :=
  [Column "user_id" "INTEGER" DefNull; Column "ship_killed" "TEXT" DefNull;
   Column "pilot_killed" "TEXT" DefNull].

(** The kill-log insert of the specification ([recordKill]), on the table
    [kills] of [kill_log.db] that the specification assumes to exist. *)
Definition spec_record_kill (killer : Z) (ship pilot : string) : PyM world unit :=
  insert_row kill_log_db "kills" ["user_id"; "ship_killed"; "pilot_killed"]
    [PInt killer; PStr ship; PStr pilot].

(** ** The abstract view *)

Record award := Award { aw_user : Z; aw_by : string; aw_reason : string; aw_time : Z }.

Definition award_of_row (r : list sqlval) : option award :=
  match r with
  | [SInt u; SText b; SText why; STimestamp t] => Some (Award u b why t)
  | _ => None
  end.

Definition table_of (path t : string) (fs : fsys) : option table :=
  fs !! path ≫= fun db => db !! t.

Definition kill_of_row (r : list sqlval) : option (Z * string * string) :=
  match r with [SInt u; SText sh; SText p] => Some (u, sh, p) | _ => None end.

(** The table [kills] has the columns of the query and rows [ks]. *)
Definition kills_ok (fs : fsys) (tb : table) (ks : list (Z * string * string)) : Prop :=
  table_of kill_log_db "kills" fs = Some tb ∧
  tbl_cols tb = kills_cols ∧ mapM kill_of_row (tbl_rows tb) = Some ks.

(** The awards recorded in [tokens.db], oldest first. *)
Definition awards (fs : fsys) : option (list award) :=
  table_of tokens_db "awarded_tokens" fs ≫= fun tb => mapM award_of_row (tbl_rows tb).

(** The table has the schema [init_db] gives it and every row reads back as
    an award. *)
Definition tokens_ok (fs : fsys) (tb : table) (aws : list award) : Prop :=
  table_of tokens_db "awarded_tokens" fs = Some tb ∧
  tbl_cols tb = awarded_tokens_cols ∧ mapM award_of_row (tbl_rows tb) = Some aws.

(** ** [init_db] *)

(** The database [init_db] leaves: [awarded_tokens] created when absent. *)
Definition with_awarded_tokens (db : database) : database :=
  match db !! "awarded_tokens" with
  | Some _ => db
  | None => <["awarded_tokens" := Table awarded_tokens_cols []]> db
  end.

Lemma with_awarded_tokens_lookup db :
  with_awarded_tokens db !! "awarded_tokens" =
  Some (default (Table awarded_tokens_cols []) (db !! "awarded_tokens")).
Proof.
  unfold with_awarded_tokens. destruct (db !! "awarded_tokens") eqn:E; rewrite ?E; [done|].
  by rewrite lookup_insert_eq.
Qed.

Lemma with_awarded_tokens_idem db : with_awarded_tokens (with_awarded_tokens db) = with_awarded_tokens db.
Proof. unfold with_awarded_tokens at 1. by rewrite with_awarded_tokens_lookup. Qed.

Lemma init_db_run w :
  init_db w = (Ok tt, set_fs (<[tokens_db := with_awarded_tokens (default ∅ (w_fs w !! tokens_db))]> (w_fs w)) w).
Proof.
  unfold init_db, sql, zoom. simpl.
  rewrite with_ddl_commit_run by done. rewrite exec_create_ok. done.
Qed.

(** C11: [init_db] always completes, leaves the table [awarded_tokens] in
    [tokens.db] (empty and with the four columns of l. 45-50 when it was
    absent, untouched when present), changes no other file, and running it
    a second time changes nothing: the schema creation is idempotent. *)
Theorem init_db_idempotent w :
  ∃ w', init_db w = (Ok tt, w') ∧
    table_of tokens_db "awarded_tokens" (w_fs w') =
      Some (default (Table awarded_tokens_cols []) (table_of tokens_db "awarded_tokens" (w_fs w))) ∧
    (∀ p, p ≠ tokens_db -> w_fs w' !! p = w_fs w !! p) ∧
    init_db w' = (Ok tt, w').
Proof.
  eexists. rewrite init_db_run. split_and!; [done| | |].
  - unfold table_of. simpl. rewrite lookup_insert_eq. simpl.
    rewrite with_awarded_tokens_lookup. by destruct (w_fs w !! tokens_db).
  - intros p Hp. simpl. by rewrite lookup_insert_ne.
  - rewrite init_db_run. unfold set_fs. simpl.
    rewrite lookup_insert_eq. simpl. by rewrite insert_insert_eq, with_awarded_tokens_idem.
Qed.

(** ** [award_token] *)

Lemma awarded_row now u n r :
  build_row now awarded_tokens_cols ["user_id"; "awarded_by"; "reason"] [SInt u; SText n; SText r] =
  [SInt u; SText n; SText r; STimestamp now].
Proof. reflexivity. Qed.

Lemma insert_row_run path t names ps w :
  insert_row path t names ps w =
  let db := default ∅ (w_fs w !! path) in
  match exec_stmt (w_clock w / 1000)%Z (InsertValues t names) ps db with
  | (Ok _, db') => (Ok tt, set_fs (<[path := db']> (w_fs w)) w)
  | (Exn e, _) => (Exn e, set_fs (<[path := db]> (w_fs w)) w)
  end.
Proof.
  unfold insert_row, sql, zoom. rewrite with_dml_commit_run by done. cbn -[exec_stmt].
  by destruct (exec_stmt (w_clock w / 1000)%Z _ _ _) as [[] ?].
Qed.

(** An insert of three values into a table that has the named columns. *)
Lemma insert_row_ok path t names ps w db tb vals :
  w_fs w !! path = Some db -> db !! t = Some tb ->
  Forall (fun n => is_Some (col_index (tbl_cols tb) n)) names ->
  bind_all (length names) ps = Ok vals ->
  insert_row path t names ps w =
  (Ok tt, set_fs (<[path := <[t := Table (tbl_cols tb)
       (tbl_rows tb ++ [build_row (w_clock w / 1000)%Z (tbl_cols tb) names vals])]> db]> (w_fs w)) w).
Proof.
  intros Hdb Ht Hc Hb. rewrite insert_row_run, Hdb. cbn -[exec_stmt].
  by rewrite (exec_insert_ok _ _ _ _ _ tb vals).
Qed.

Lemma bind_three uid a b :
  (int64_min <= uid <= int64_max)%Z ->
  bind_all 3 [PInt uid; PStr a; PStr b] = Ok [SInt uid; SText a; SText b].
Proof. intros Hz. unfold bind_all. simpl. by rewrite decide_True. Qed.

Lemma table_of_insert path t tb db fs :
  table_of path t (<[path := <[t := tb]> db]> fs) = Some tb.
Proof. unfold table_of. by rewrite lookup_insert_eq; simpl; rewrite lookup_insert_eq. Qed.

(** C10: on a [tokens.db] prepared by [init_db], [award_token] with a 64-bit
    user id completes and appends exactly one award to the log, with the
    user id, the name of the interaction's user, the reason and the current
    second as timestamp; it touches no other file and nothing else of the
    world.  Repeating it appends again: there is no deduplication. *)
Theorem award_token_refines w ia uid reason tb aws :
  tokens_ok (w_fs w) tb aws -> (int64_min <= uid <= int64_max)%Z ->
  ∃ tb', award_token uid ia reason w =
    (Ok tt, set_fs (<[tokens_db := <["awarded_tokens" := tb']> (default ∅ (w_fs w !! tokens_db))]> (w_fs w)) w) ∧
    tokens_ok (<[tokens_db := <["awarded_tokens" := tb']> (default ∅ (w_fs w !! tokens_db))]> (w_fs w)) tb'
      (aws ++ [Award uid (user_name (ia_user ia)) reason (w_clock w / 1000)]).
Proof.
  intros (Ht & Hcols & Hrows) Hz. unfold table_of in Ht.
  destruct (w_fs w !! tokens_db) as [db|] eqn:Hdb; simpl in Ht; [|done].
  unfold award_token.
  rewrite (insert_row_ok _ _ _ _ _ db tb [SInt uid; SText (user_name (ia_user ia)); SText reason] Hdb Ht); [|rewrite Hcols; repeat constructor; eexists; reflexivity|by apply bind_three].
  eexists. split; [done|]. split_and!; [apply table_of_insert|done|].
  simpl. rewrite Hcols, awarded_row. by apply mapM_snoc_Some.
Qed.

(** C20: a user id outside the 64-bit range makes [award_token] raise
    [OverflowError] before anything is written: the award log is
    unchanged. *)
Theorem award_token_overflow w ia uid reason tb aws :
  tokens_ok (w_fs w) tb aws -> ¬ (int64_min <= uid <= int64_max)%Z ->
  ∃ w', award_token uid ia reason w =
    (Exn (OverflowError "Python int too large to convert to SQLite INTEGER"), w') ∧
    w_fs w' = w_fs w ∧ awards (w_fs w') = Some aws.
Proof.
  intros (Ht & Hcols & Hrows) Hz. unfold table_of in Ht.
  destruct (w_fs w !! tokens_db) as [db|] eqn:Hdb; simpl in Ht; [|done].
  unfold award_token. rewrite insert_row_run, Hdb. unfold exec_stmt. simpl. rewrite Ht, Hcols. simpl.
  unfold bind_all. simpl. rewrite decide_False by done.
  eexists. split; [done|]. simpl. rewrite insert_id by done. split; [done|].
  unfold awards, table_of. rewrite Hdb. simpl. by rewrite Ht.
Qed.


(** The specification's [recordKill] appends one kill to a [kills] table
    with the query's columns. *)
Lemma spec_record_kill_ok w killer ship pilot tb ks :
  kills_ok (w_fs w) tb ks -> (int64_min <= killer <= int64_max)%Z ->
  ∃ tb', spec_record_kill killer ship pilot w =
    (Ok tt, set_fs (<[kill_log_db := <["kills" := tb']> (default ∅ (w_fs w !! kill_log_db))]> (w_fs w)) w) ∧
    kills_ok (<[kill_log_db := <["kills" := tb']> (default ∅ (w_fs w !! kill_log_db))]> (w_fs w)) tb'
      (ks ++ [(killer, ship, pilot)]).
Proof.
  intros (Ht & Hcols & Hrows) Hz. unfold table_of in Ht.
  destruct (w_fs w !! kill_log_db) as [db|] eqn:Hdb; simpl in Ht; [|done].
  unfold spec_record_kill.
  rewrite (insert_row_ok _ _ _ _ _ db tb [SInt killer; SText ship; SText pilot] Hdb Ht);
    [|rewrite Hcols; repeat constructor; eexists; reflexivity|by apply bind_three].
  eexists. split; [done|]. split_and!; [apply table_of_insert|done|].
  simpl. rewrite Hcols. by apply mapM_snoc_Some.
Qed.

Lemma award_token_refines_witness :
  let w := demo_world {[ tokens_db := {[ "awarded_tokens" := Table awarded_tokens_cols [] ]} ]} in
  ∃ tb', award_token 123456789 (new_interaction demo_user) "escort" w =
    (Ok tt, set_fs (<[tokens_db := <["awarded_tokens" := tb']> (default ∅ (w_fs w !! tokens_db))]> (w_fs w)) w) ∧
    tokens_ok (<[tokens_db := <["awarded_tokens" := tb']> (default ∅ (w_fs w !! tokens_db))]> (w_fs w)) tb'
      [Award 123456789 "Ace" "escort" 1700000005].
Proof.
  intros w.
  apply (award_token_refines w (new_interaction demo_user) 123456789 "escort" (Table awarded_tokens_cols []) []);
    [split_and!; reflexivity|vm_compute; split; discriminate].
Defined.

Lemma award_token_overflow_witness :
  let w := demo_world {[ tokens_db := {[ "awarded_tokens" := Table awarded_tokens_cols [] ]} ]} in
  ∃ w', award_token (2 ^ 63) (new_interaction demo_user) "escort" w =
    (Exn (OverflowError "Python int too large to convert to SQLite INTEGER"), w') ∧
    w_fs w' = w_fs w ∧ awards (w_fs w') = Some [].
Proof.
  intros w.
  apply (award_token_overflow w (new_interaction demo_user) (2 ^ 63) "escort" (Table awarded_tokens_cols []) []);
    [split_and!; reflexivity|unfold int64_min, int64_max; lia].
Defined.

