(* ===== verification/Commands.v ===== *)
(** * Commands: the slash-command handlers

    [hello] (l. 55-57), the handler [logkill] of the command [award_token]
    (l. 70-84), [killstats] (l. 88-102) and [lookup] (l. 106-161), each a
    computation on the [world] written statement by statement after the
    source.  [logkill] calls the global name [log_kill]; the module defines
    no such name ([module_globals] lists what it defines), so the call
    raises [NameError].  [logkill_with] takes the module's globals as a
    parameter so that the handler can also be studied with [log_kill]
    bound to the specification's [recordKill].  The last part states, as
    triples, what each handler leaves unchanged; [Bot] lifts these to every
    run of the bot. *)

From S2P Require Import Prelude PyCore Sqlite Discord Browser World Fixtures Persistence.

(** ** [hello] *)

Definition hello : PyM world unit :=
  ia ← gets w_ia;
  discord (send_message ("Hello, " +:+ user_name (ia_user ia) +:+ "!")).

(** ** [logkill] *)

(** The names bound at module level: the imports, the globals of l. 17-27
    and the functions defined with [def]. *)
Definition module_globals : list string :=
  ["discord"; "app_commands"; "sqlite3"; "commands"; "os"; "load_dotenv"; "logging";
   "webdriver"; "By"; "Service"; "Options"; "WebDriverWait"; "EC";
   "TOKEN"; "CHROMEDRIVER_PATH"; "logger"; "intents"; "bot";
   "on_ready"; "init_db"; "hello"; "award_token"; "logkill"; "killstats"; "lookup"].

(** Evaluating the name [log_kill] in the module's globals. *)
Definition resolve_log_kill (globals : list string) : PyM world (Z -> string -> string -> PyM world unit) :=
  if decide ("log_kill" ∈ globals) then mret spec_record_kill
  else raise (NameError "name 'log_kill' is not defined").

Definition required_msg : string := "Both 'ship_killed' and 'pilot_killed' are required.".

Definition kill_logged_msg (name pilot ship : string) : string :=
  "Kill logged: " +:+ name +:+ " killed " +:+ pilot +:+ " in their " +:+ ship +:+ ".".

Definition logkill_with (globals : list string) (ship_killed pilot_killed : string) : PyM world unit :=
  ia ← gets w_ia;
  if negb (py_truthy_str ship_killed) || negb (py_truthy_str pilot_killed) then
    discord (send_message required_msg)
  else
    f ← resolve_log_kill globals;
    f (user_id (ia_user ia)) ship_killed pilot_killed;;
    discord (send_message (kill_logged_msg (user_name (ia_user ia)) pilot_killed ship_killed)).

Definition logkill (ship_killed pilot_killed : string) : PyM world unit :=
  logkill_with module_globals ship_killed pilot_killed.

(** ** [killstats] *)

Definition kills_query : stmt := SelectCountGroupBy "kills" ["user_id"; "ship_killed"; "pilot_killed"].

(** [f"{v}"] of a value read from SQLite (a timestamp is shown by its
    second count). *)
Definition py_str_sqlval (v : sqlval) : string :=
  match v with
  | SInt z => py_str_int z
  | SText s => s
  | SNull => "None"
  | STimestamp t => py_str_int t
  end.

(** The block of one row, l. 99; [stat[i]] past the end raises. *)
Definition stat_block (stat : list sqlval) : res string :=
  match stat with
  | a :: b :: c :: d :: _ =>
      Ok ("User ID: " +:+ py_str_sqlval a +:+ nl +:+
          "  Ship: " +:+ py_str_sqlval b +:+ nl +:+
          "  Pilot: " +:+ py_str_sqlval c +:+ nl +:+
          "  Kills: " +:+ py_str_sqlval d +:+ nl +:+ nl)
  | _ => Exn (IndexError "tuple index out of range")
  end.

(** The loop of l. 98-99: [stats_message += ...] for each row. *)
Fixpoint stats_message (acc : string) (stats : list (list sqlval)) : res string :=
  match stats with
  | [] => Ok acc
  | stat :: rest =>
      match stat_block stat with
      | Ok b => stats_message (acc +:+ b) rest
      | Exn e => Exn e
      end
  end.

Definition no_kill_data_msg : string := "No kill data available.".

Definition killstats : PyM world unit :=
  stats ← sql (fun now => with_connect kill_log_db (execute now kills_query []));
  match stats with
  | [] => discord (send_message no_kill_data_msg)
  | _ :: _ =>
      match stats_message ("Kill Stats:" +:+ nl) stats with
      | Ok msg => discord (send_message msg)
      | Exn e => raise e
      end
  end.

(** The rows the query returns: each distinct [(user_id, ship, pilot)] of the
    table with its count. *)
Definition stats_rows (rows : list (list sqlval)) : list (list sqlval) :=
  map (fun '(k, n) => k ++ [SInt (Z.of_nat n)]) (group_count (omap (project [0; 1; 2]) rows)).

(** The block l. 99 prints for the row [r] with count [n]. *)
Definition kill_block (r : list sqlval) (n : nat) : string :=
  match stat_block (r ++ [SInt (Z.of_nat n)]) with Ok b => b | Exn _ => "" end.

(** ** [lookup] *)

Definition rsi_base : string := "https://robertsspaceindustries.com/citizens/".
Definition bio_fallback : string := "Bio not found".
Definition avatar_fallback : string := "Avatar not found".
Definition lookup_error_msg : string :=
  "An error occurred while fetching the profile. Please try again later.".

(** The URL of l. 121. *)
Definition profile_url (rsi_handle : string) : string := rsi_base +:+ rsi_handle.

(** The reply of l. 148-153. *)
Definition profile_info (rsi_handle bio avatar url : string) : string :=
  "**RSI Handle:** " +:+ rsi_handle +:+ nl +:+
  "Bio: " +:+ bio +:+ nl +:+
  "Avatar: " +:+ avatar +:+ nl +:+
  "[Profile Link](" +:+ url +:+ ")".

(** Entering the function: a fresh frame in which [driver] is unbound. *)
Definition enter_frame : PyM world unit :=
  modify (fun w => World (w_fs w) (w_clock w) (w_log w) (w_ia w) (browser_frame (w_br w))).

Section Lookup.
Context `{Web}.

(** l. 128-135: the bio, or its fall-back when the wait times out. *)
Definition extract_bio : PyM world string :=
  try_except (el ← selenium (wait_presence is_bio_div); mret (py_strip (node_text el)))
             (fun _ => mret bio_fallback).

(** l. 137-142: the avatar's [src], or its fall-back. *)
Definition extract_avatar : PyM world string :=
  try_except (el ← selenium (wait_presence (has_class "profile-avatar"));
              mret (py_str_opt (get_attribute "src" el)))
             (fun _ => mret avatar_fallback).

(** The body of the outer [try] (l. 111-154). *)
Definition lookup_body (rsi_handle : string) : PyM world unit :=
  selenium chrome_launch;;
  selenium (driver_get (profile_url rsi_handle));;
  profile_bio ← extract_bio;
  profile_avatar ← extract_avatar;
  selenium driver_quit;;
  discord (followup_send (profile_info rsi_handle profile_bio profile_avatar (profile_url rsi_handle))).

(** The [except Exception as e] clause (l. 156-158). *)
Definition lookup_handler (e : exn) : PyM world unit :=
  log ERROR ("Error during lookup: " +:+ exn_str e);;
  discord (followup_send lookup_error_msg).

Definition lookup (rsi_handle : string) : PyM world unit :=
  enter_frame;;
  discord defer;;
  try_finally (try_except (lookup_body rsi_handle) lookup_handler) (selenium driver_quit).

(** The log line of l. 157. *)
Definition error_line (e : exn) : level * string := (ERROR, "Error during lookup: " +:+ exn_str e).

(** What the two waits of l. 129-142 yield, by the reference behaviour of
    [until]: the text or fall-back, and the clock when the wait ends. *)
Definition bio_result (url : string) (t : Z) : string * Z :=
  match until_ref (fun s => find_element is_bio_div (web_page url s)) t with
  | (Ok el, t') => (py_strip (node_text el), t')
  | (Exn _, t') => (bio_fallback, t')
  end.

Definition avatar_result (url : string) (t : Z) : string * Z :=
  match until_ref (fun s => find_element (has_class "profile-avatar") (web_page url s)) t with
  | (Ok el, t') => (py_str_opt (get_attribute "src" el), t')
  | (Exn _, t') => (avatar_fallback, t')
  end.

End Lookup.

Arguments bio_result : simpl never.
Arguments avatar_result : simpl never.

(** ** [hello] *)

(** C23: [hello] answers the interaction with "Hello, <name>!" and changes
    nothing else. *)
Theorem hello_reply w :
  ia_response (w_ia w) = None -> String.length (user_name (ia_user (w_ia w))) <= 1992 ->
  hello w = (Ok tt, set_ia (answered (w_ia w) ("Hello, " +:+ user_name (ia_user (w_ia w)) +:+ "!")) w).
Proof.
  intros Hr Hl. unfold hello. rewrite run_bind. simpl. apply reply_ok; [done|].
  rewrite !string_length_app. unfold message_limit. simpl. lia.
Qed.

(** ** [logkill] *)

Lemma truthy_nonempty s : s <> "" -> py_truthy_str s = true.
Proof. intros Hs. unfold py_truthy_str. by rewrite (proj2 (String.eqb_neq _ _) Hs). Qed.

Lemma truthy_empty : py_truthy_str "" = false.
Proof. done. Qed.

(** C1: the command [award_token] with both fields non-empty never records
    anything: its handler [logkill] evaluates the name [log_kill], which the
    module does not define, and raises [NameError] before any insert and
    before any reply; the world is left exactly as it was. *)
Theorem logkill_name_error ship_killed pilot_killed w :
  ship_killed <> "" -> pilot_killed <> "" ->
  logkill ship_killed pilot_killed w = (Exn (NameError "name 'log_kill' is not defined"), w).
Proof.
  intros Hs Hp. unfold logkill, logkill_with. simpl.
  rewrite !truthy_nonempty by done. done.
Qed.

(** C19: with an empty field, [logkill] replies with the required-fields
    message and changes nothing else. *)
Theorem logkill_required ship_killed pilot_killed w :
  (ship_killed = "" ∨ pilot_killed = "") -> ia_response (w_ia w) = None ->
  logkill ship_killed pilot_killed w = (Ok tt, set_ia (answered (w_ia w) required_msg) w).
Proof.
  intros Hempty Hr. unfold logkill, logkill_with. simpl.
  replace (negb (py_truthy_str ship_killed) || negb (py_truthy_str pilot_killed)) with true
    by (destruct Hempty as [->| ->]; [done|by rewrite orb_true_r]).
  apply reply_ok; [done|vm_compute; lia].
Qed.

Lemma kill_logged_msg_echo name pilot ship :
  pilot ⊑ₛ kill_logged_msg name pilot ship ∧ ship ⊑ₛ kill_logged_msg name pilot ship.
Proof. unfold kill_logged_msg. split; solve_infix. Qed.

(** C12: the handler does what the specification asks of [logKill] once the
    name [log_kill] is bound to its [recordKill]: for non-empty fields it
    appends exactly one kill [(user id, ship, pilot)] to [kills] and replies
    with a confirmation that echoes the pilot and the ship verbatim. *)
Theorem logkill_spec_refinement ship_killed pilot_killed w tb ks :
  ship_killed <> "" -> pilot_killed <> "" -> kills_ok (w_fs w) tb ks ->
  (int64_min <= user_id (ia_user (w_ia w)) <= int64_max)%Z ->
  ia_response (w_ia w) = None ->
  String.length (kill_logged_msg (user_name (ia_user (w_ia w))) pilot_killed ship_killed) <= message_limit ->
  ∃ w', logkill_with ("log_kill" :: module_globals) ship_killed pilot_killed w = (Ok tt, w') ∧
    (∃ tb', kills_ok (w_fs w') tb' (ks ++ [(user_id (ia_user (w_ia w)), ship_killed, pilot_killed)])) ∧
    w_ia w' = answered (w_ia w) (kill_logged_msg (user_name (ia_user (w_ia w))) pilot_killed ship_killed) ∧
    pilot_killed ⊑ₛ kill_logged_msg (user_name (ia_user (w_ia w))) pilot_killed ship_killed ∧
    ship_killed ⊑ₛ kill_logged_msg (user_name (ia_user (w_ia w))) pilot_killed ship_killed.
Proof.
  intros Hs Hp Hk Hz Hr Hl. unfold logkill_with. simpl.
  rewrite !truthy_nonempty by done. simpl.
  destruct (spec_record_kill_ok w _ ship_killed pilot_killed _ _ Hk Hz) as (tb' & Hrun & Hok').
  unfold resolve_log_kill. rewrite decide_True by (apply elem_of_cons; by left).
  eexists. split.
  - unfold gets. rewrite !run_bind, run_ret, run_bind, Hrun, reply_ok; [reflexivity|exact Hr|exact Hl].
  - split_and!; [by exists tb'|done|apply kill_logged_msg_echo..].
Qed.

(** ** [killstats] *)

Lemma kills_query_run w tb :
  table_of kill_log_db "kills" (w_fs w) = Some tb -> tbl_cols tb = kills_cols ->
  sql (fun now => with_connect kill_log_db (execute now kills_query [])) w =
  (Ok (stats_rows (tbl_rows tb)), w).
Proof.
  unfold table_of. intros Ht Hcols.
  destruct (w_fs w !! kill_log_db) as [db|] eqn:Hdb; simpl in Ht; [|done].
  unfold sql, zoom. rewrite with_ddl_run by done. simpl. rewrite Hdb. simpl.
  unfold exec_stmt. simpl. rewrite Ht, Hcols. simpl. rewrite insert_id by done.
  by destruct w.
Qed.

(** Without the table the query raises; connecting has created the file. *)
Lemma kills_query_no_table w :
  table_of kill_log_db "kills" (w_fs w) = None ->
  sql (fun now => with_connect kill_log_db (execute now kills_query [])) w =
  (Exn (no_such_table "kills"),
   set_fs (<[kill_log_db := default ∅ (w_fs w !! kill_log_db)]> (w_fs w)) w).
Proof.
  unfold table_of. intros Ht. unfold sql, zoom. rewrite with_ddl_run by done. cbn -[exec_stmt].
  destruct (w_fs w !! kill_log_db) as [db|]; simpl in Ht; unfold exec_stmt, kills_query; simpl;
    [rewrite Ht|]; done.
Qed.

(** C2: when [kill_log.db] has no table [kills] (nothing in the module
    creates it), [killstats] raises [OperationalError: no such table: kills]
    and sends no reply; its only effect is that connecting created
    [kill_log.db] as an empty file if it was absent. *)
Theorem killstats_no_table w :
  table_of kill_log_db "kills" (w_fs w) = None ->
  killstats w =
  (Exn (no_such_table "kills"),
   set_fs (<[kill_log_db := default ∅ (w_fs w !! kill_log_db)]> (w_fs w)) w).
Proof. intros Ht. unfold killstats. by rewrite run_bind, kills_query_no_table. Qed.

(** The table's rows are the triples of the kill log. *)
Lemma kills_rows_project tb ks :
  mapM kill_of_row (tbl_rows tb) = Some ks -> omap (project [0; 1; 2]) (tbl_rows tb) = tbl_rows tb.
Proof.
  intros Hm%mapM_Some_1. apply omap_id_Forall.
  induction Hm as [|r k rs ks Hr _ IH]; constructor; [|done].
  destruct r as [|[] [|[] [|[] []]]]; by simplify_eq/=.
Qed.

(** C21: on an empty [kills] table, [killstats] replies
    "No kill data available." and changes nothing else. *)
Theorem killstats_empty w tb :
  kills_ok (w_fs w) tb [] -> ia_response (w_ia w) = None ->
  killstats w = (Ok tt, set_ia (answered (w_ia w) no_kill_data_msg) w).
Proof.
  intros (Ht & Hcols & Hrows) Hr.
  destruct (tbl_rows tb) eqn:E; [|simpl in Hrows; destruct (kill_of_row _), (mapM _ _); done].
  unfold killstats. rewrite run_bind, (kills_query_run w tb Ht Hcols), E. simpl.
  apply reply_ok; [done|vm_compute; lia].
Qed.

(** The loop of l. 98-99 keeps its initial text in front and every block it
    formats. *)
Lemma stats_message_ok acc stats :
  Forall (fun s => 4 <= length s) stats ->
  ∃ m, stats_message acc stats = Ok m ∧ (∃ rest, m = acc +:+ rest) ∧
    ∀ s b, s ∈ stats -> stat_block s = Ok b -> b ⊑ₛ m.
Proof.
  intros Hl. revert acc. induction Hl as [|s stats Hs _ IH]; intros acc; simpl.
  - exists acc. split_and!; [done|exists ""; by rewrite string_app_nil_r|by intros ?? []%elem_of_nil].
  - destruct s as [|a [|b [|c [|d s]]]]; simpl in Hs; try lia. simpl.
    match goal with |- context [stats_message (acc +:+ ?blk) stats] =>
      destruct (IH (acc +:+ blk)) as (m & Hm & [rest ->] & Hin); exists ((acc +:+ blk) +:+ rest)
    end.
    split_and!; [done|eexists; apply (string_app_assoc acc)|].
    intros s' b' Hs' Hb. apply elem_of_cons in Hs' as [->|Hs']; [|by apply (Hin s')].
    simplify_eq/=. auto with trackr.
Qed.

Lemma kill_row_length tb ks r :
  mapM kill_of_row (tbl_rows tb) = Some ks -> r ∈ tbl_rows tb -> length r = 3.
Proof.
  intros Hm Hr. assert (Hs : is_Some (mapM kill_of_row (tbl_rows tb))) by eauto.
  apply mapM_is_Some_1 in Hs. rewrite Forall_forall in Hs. destruct (Hs r Hr) as [k Hk].
  destruct r as [|[] [|[] [|[] []]]]; by simplify_eq/=.
Qed.

(** C13: on a non-empty [kills] table, [killstats] composes a reply that
    starts with "Kill Stats:" and holds, for every kill triple
    [(user_id, ship, pilot)] of the log, the block with that triple and its
    exact number of occurrences; the reply is sent when it fits Discord's
    2000-character limit, and otherwise sending raises [HTTPException] and
    the user gets no answer.  The store is not changed. *)
Theorem killstats_reports w tb ks :
  kills_ok (w_fs w) tb ks -> ks <> [] -> ia_response (w_ia w) = None ->
  ∃ msg, (∃ rest, msg = "Kill Stats:" +:+ nl +:+ rest) ∧
    (∀ r, r ∈ tbl_rows tb -> kill_block r (occ r (tbl_rows tb)) ⊑ₛ msg) ∧
    (String.length msg <= message_limit -> killstats w = (Ok tt, set_ia (answered (w_ia w) msg) w)) ∧
    (message_limit < String.length msg -> killstats w = (Exn too_long, w)).
Proof.
  intros (Ht & Hcols & Hrows) Hks Hr.
  assert (Hlen : ∀ r, r ∈ tbl_rows tb -> length r = 3) by (intros r; by apply kill_row_length with ks).
  assert (Hstats : stats_rows (tbl_rows tb) =
            map (fun '(k, n) => k ++ [SInt (Z.of_nat n)]) (group_count (tbl_rows tb)))
    by (unfold stats_rows; by rewrite (kills_rows_project tb ks)).
  assert (Hall : Forall (fun s => 4 <= length s) (stats_rows (tbl_rows tb))).
  { rewrite Hstats, Forall_forall. intros s ([k n] & -> & Hin)%list_elem_of_fmap.
    rewrite length_app, (Hlen k); [simpl; lia|].
    apply group_count_keys, list_elem_of_fmap. by exists (k, n). }
  assert (Hne : stats_rows (tbl_rows tb) <> []).
  { rewrite Hstats. destruct (tbl_rows tb) as [|r0 rs] eqn:E; [exfalso; apply Hks; by injection Hrows|].
    intros Hnil. apply fmap_nil_inv in Hnil.
    assert (Hk : r0 ∈ (group_count (r0 :: rs)).*1) by (apply group_count_keys; left).
    rewrite Hnil in Hk. by apply elem_of_nil in Hk. }
  destruct (stats_message_ok ("Kill Stats:" +:+ nl) _ Hall) as (m & Hm & [rest Hrest] & Hin).
  assert (Hrun : killstats w = match discord (send_message m) w with r => r end).
  { unfold killstats. rewrite run_bind, (kills_query_run w tb Ht Hcols).
    destruct (stats_rows (tbl_rows tb)); [done|]. by rewrite Hm. }
  exists m. split_and!.
  - exists rest. by rewrite Hrest, string_app_assoc.
  - intros r Hrin. apply (Hin (r ++ [SInt (Z.of_nat (occ r (tbl_rows tb)))])).
    + rewrite Hstats. apply list_elem_of_fmap. exists (r, occ r (tbl_rows tb)). split; [done|].
      by apply group_count_spec.
    + unfold kill_block. pose proof (Hlen _ Hrin) as Hl3.
      destruct r as [|a [|b [|c [|d r]]]]; simpl in Hl3; try lia. done.
  - intros Hl. rewrite Hrun. by apply reply_ok.
  - intros Hl. rewrite Hrun. by apply reply_too_long.
Qed.


(** ** [lookup] *)

Section LookupProofs.
Context `{Web}.

(** C3: when Chrome cannot be started, [lookup] logs the error and sends the
    generic failure message, but then its [finally] clause calls
    [driver.quit()] on a [driver] that was never assigned: the handler ends
    with [UnboundLocalError] and no browser session is quit. *)
Theorem lookup_launch_failure rsi_handle w e :
  web_launch = Some e -> is_Exception e = true -> ia_response (w_ia w) = None ->
  lookup rsi_handle w =
  (Exn unbound_driver,
   World (w_fs w) (w_clock w) (w_log w ++ [error_line e])
     (Interaction (ia_user (w_ia w)) (Some RespDeferred) (ia_messages (w_ia w) ++ [lookup_error_msg]))
     (browser_frame (w_br w))).
Proof.
  intros Hl He Hr. destruct w as [fs t lg [u resp msgs] b]; simpl in Hr; subst resp.
  unfold lookup, lookup_body, lookup_handler, try_finally, try_except, chrome_launch.
  simpl. rewrite Hl. simpl. rewrite He. reflexivity.
Qed.

(** C22: when Chrome starts but loading the profile page raises, [lookup]
    logs the error, sends the generic failure message as its followup, and
    quits the session exactly once (in [finally]). *)
Theorem lookup_nav_failure rsi_handle w e :
  web_launch = None -> web_load (profile_url rsi_handle) = Some e -> is_Exception e = true ->
  web_quit 0 = None -> br_launched (w_br w) ∉ br_quits (w_br w) -> ia_response (w_ia w) = None ->
  ∃ b', lookup rsi_handle w =
    (Ok tt, World (w_fs w) (w_clock w) (w_log w ++ [error_line e])
       (Interaction (ia_user (w_ia w)) (Some RespDeferred) (ia_messages (w_ia w) ++ [lookup_error_msg])) b') ∧
    quits_of (br_launched (w_br w)) b' = 1.
Proof.
  intros Hl Hload He Hq Hfresh Hr.
  destruct w as [fs t lg [u resp msgs] [drv pg n qs]]; simpl in *; subst resp.
  eexists. split.
  - unfold lookup, lookup_body, lookup_handler, enter_frame, chrome_launch, driver_get, driver_quit.
    run_w. rewrite Hl. run_w. rewrite Hload. run_w. rewrite He. run_w.
    rewrite decide_True by (vm_compute; lia). run_w.
    rewrite quits_of_fresh by done. rewrite Hq. reflexivity.
  - rewrite (quits_of_snoc n (Browser (Some n) None (S n) qs)), quits_of_fresh by done. done.
Qed.

Lemma extract_bio_run w d url :
  br_driver (w_br w) = Some d -> br_page (w_br w) = Some url ->
  extract_bio w = (Ok (bio_result url (w_clock w)).1,
    World (w_fs w) (bio_result url (w_clock w)).2 (w_log w) (w_ia w) (w_br w)).
Proof.
  destruct w as [fs t lg ia [drv pg n qs]]; simpl. intros -> ->.
  unfold extract_bio, wait_presence. run_w. rewrite wait_until_ref.
  unfold bio_result, until_ref. by destruct (first_hit _ _) as [[el t']|].
Qed.

Lemma extract_avatar_run w d url :
  br_driver (w_br w) = Some d -> br_page (w_br w) = Some url ->
  extract_avatar w = (Ok (avatar_result url (w_clock w)).1,
    World (w_fs w) (avatar_result url (w_clock w)).2 (w_log w) (w_ia w) (w_br w)).
Proof.
  destruct w as [fs t lg ia [drv pg n qs]]; simpl. intros -> ->.
  unfold extract_avatar, wait_presence. run_w. rewrite wait_until_ref.
  unfold avatar_result, until_ref. by destruct (first_hit _ _) as [[el t']|].
Qed.

(** C4: when Chrome starts and the page loads, [lookup] always answers with
    the profile block: the bio is the stripped text of the first matching
    [div] found by the 10 s wait, or "Bio not found"; the avatar is the
    [src] of the first [.profile-avatar] found by a second, independent
    10 s wait, or "Avatar not found"; the clock has advanced by the two
    waits.  The session is quit twice, once in the body (l. 145) and again
    in [finally] (l. 161). *)
Theorem lookup_success rsi_handle w :
  web_launch = None -> web_load (profile_url rsi_handle) = None ->
  web_quit 0 = None -> web_quit 1 = None ->
  br_launched (w_br w) ∉ br_quits (w_br w) -> ia_response (w_ia w) = None ->
  let bio := bio_result (profile_url rsi_handle) (w_clock w) in
  let avatar := avatar_result (profile_url rsi_handle) bio.2 in
  String.length (profile_info rsi_handle bio.1 avatar.1 (profile_url rsi_handle)) <= message_limit ->
  ∃ b', lookup rsi_handle w =
    (Ok tt, World (w_fs w) avatar.2 (w_log w)
       (Interaction (ia_user (w_ia w)) (Some RespDeferred)
          (ia_messages (w_ia w) ++ [profile_info rsi_handle bio.1 avatar.1 (profile_url rsi_handle)])) b') ∧
    quits_of (br_launched (w_br w)) b' = 2.
Proof.
  intros Hl Hload Hq0 Hq1 Hfresh Hr bio avatar Hlen.
  destruct w as [fs t lg [u resp msgs] [drv pg n qs]]; simpl in Hfresh, Hr; subst resp.
  eexists. split.
  - unfold lookup, lookup_body, enter_frame, chrome_launch, driver_get, driver_quit, followup_send.
    run_w. rewrite Hl. run_w. rewrite Hload. run_w.
    rewrite (extract_bio_run _ n (profile_url rsi_handle)) by done. run_w.
    rewrite (extract_avatar_run _ n (profile_url rsi_handle)) by done. run_w.
    rewrite quits_of_fresh by done. rewrite Hq0. run_w.
    rewrite decide_True by exact Hlen. run_w.
    rewrite (quits_of_snoc n (Browser (Some n) (Some (profile_url rsi_handle)) (S n) qs)),
      quits_of_fresh by done.
    rewrite Hq1. reflexivity.
  - unfold quits_of. simpl. rewrite !occ_app, occ_fresh by done.
    by rewrite !occ_cons, !occ_nil, decide_True.
Qed.


(** C5: The spec's state machine lets only launch and navigation faults fail a
    lookup.  A fault of the body's [driver.quit()] (l. 145), after both
    fields were scraped, also does: the user gets the generic failure
    message instead of the profile, and [finally] quits the session a second
    time. *)
Theorem lookup_quit_failure rsi_handle w e :
  web_launch = None -> web_load (profile_url rsi_handle) = None ->
  web_quit 0 = Some e -> is_Exception e = true -> web_quit 1 = None ->
  br_launched (w_br w) ∉ br_quits (w_br w) -> ia_response (w_ia w) = None ->
  let avatar := avatar_result (profile_url rsi_handle) (bio_result (profile_url rsi_handle) (w_clock w)).2 in
  ∃ b', lookup rsi_handle w =
    (Ok tt, World (w_fs w) avatar.2 (w_log w ++ [error_line e])
       (Interaction (ia_user (w_ia w)) (Some RespDeferred) (ia_messages (w_ia w) ++ [lookup_error_msg])) b') ∧
    quits_of (br_launched (w_br w)) b' = 2.
Proof.
  intros Hl Hload Hq0 He Hq1 Hfresh Hr avatar.
  destruct w as [fs t lg [u resp msgs] [drv pg n qs]]; simpl in Hfresh, Hr; subst resp.
  eexists. split.
  - unfold lookup, lookup_body, lookup_handler, enter_frame, chrome_launch, driver_get, driver_quit,
      followup_send.
    run_w. rewrite Hl. run_w. rewrite Hload. run_w.
    rewrite (extract_bio_run _ n (profile_url rsi_handle)) by done. run_w.
    rewrite (extract_avatar_run _ n (profile_url rsi_handle)) by done. run_w.
    rewrite quits_of_fresh by done. rewrite Hq0, He. run_w.
    rewrite decide_True by (vm_compute; lia). run_w.
    rewrite (quits_of_snoc n (Browser (Some n) (Some (profile_url rsi_handle)) (S n) qs)),
      quits_of_fresh by done.
    rewrite Hq1. reflexivity.
  - unfold quits_of. simpl. rewrite !occ_app, occ_fresh by done.
    by rewrite !occ_cons, !occ_nil, decide_True.
Qed.


End LookupProofs.

(** ** What each handler leaves unchanged *)

(** The module binds no [log_kill]. *)
Lemma log_kill_unbound : "log_kill" ∉ module_globals.
Proof. apply (bool_decide_eq_false_1 ("log_kill" ∈ module_globals)). vm_compute. reflexivity. Qed.

(** The query of [killstats] changes no table of any file. *)
Lemma kills_query_tables p t now fs :
  table_of p t (with_connect kill_log_db (execute now kills_query []) fs).2 = table_of p t fs.
Proof.
  unfold kills_query. rewrite with_select_fs. unfold table_of.
  destruct (decide (p = kill_log_db)) as [->|Hp]; [|by rewrite lookup_insert_ne].
  rewrite lookup_insert_eq. by destruct (fs !! kill_log_db).
Qed.

Section HandlerInvariants.
Context `{Web}.
Implicit Types (P : world -> Prop).

(** A condition that every reply keeps is kept by [hello] and by the
    handler of [award_token], which fails before it writes. *)
Lemma hoare_hello P : (∀ A (m : PyM interaction A), ⦃ P ⦄ discord m ⦃ P ⦄) -> ⦃ P ⦄ hello ⦃ P ⦄.
Proof. intros Hd. unfold hello. hoare_inv; auto. Qed.

Lemma hoare_logkill P ship pilot :
  (∀ A (m : PyM interaction A), ⦃ P ⦄ discord m ⦃ P ⦄) -> ⦃ P ⦄ logkill ship pilot ⦃ P ⦄.
Proof.
  intros Hd. unfold logkill, logkill_with. apply hoare_bind_inv; [auto with hoare|intros ia].
  case_match; [auto|]. unfold resolve_log_kill.
  rewrite decide_False by apply log_kill_unbound. auto with hoare.
Qed.

(** [killstats] keeps every condition on the files that its query keeps. *)
Lemma hoare_killstats (Q : fsys -> Prop) :
  (∀ now fs, Q fs -> Q (with_connect kill_log_db (execute now kills_query []) fs).2) ->
  ⦃ on_fs Q ⦄ killstats ⦃ on_fs Q ⦄.
Proof.
  intros HQ. unfold killstats. apply hoare_bind_inv; [by apply hoare_sql_fs|].
  hoare_inv; auto with hoare.
Qed.

Lemma hoare_killstats_br Q : ⦃ on_br Q ⦄ killstats ⦃ on_br Q ⦄.
Proof. unfold killstats. hoare_inv; auto with hoare. Qed.

Lemma hoare_lookup_fs Q h : ⦃ on_fs Q ⦄ lookup h ⦃ on_fs Q ⦄.
Proof.
  unfold lookup, lookup_body, lookup_handler, extract_bio, extract_avatar.
  apply hoare_bind_inv; [by apply hoare_modify|].
  hoare_inv; auto with hoare.
Qed.

(** No Chrome session outlives a [lookup], whatever Chrome and the site do:
    the session it starts is quit in [finally] on every path. *)
Lemma lookup_sessions_closed h : ⦃ on_br sessions_closed ⦄ lookup h ⦃ on_br sessions_closed ⦄.
Proof.
  unfold lookup. repeat (apply hoare_bind_inv; [first [by apply hoare_modify|auto with hoare]|intros _]).
  apply (hoare_try_finally _ (on_br sessions_open_ok));
    [|apply hoare_selenium_br, driver_quit_closed].
  apply hoare_try_except; [|unfold lookup_handler; hoare_inv; auto with hoare].
  unfold lookup_body. apply (hoare_bind _ (on_br sessions_open_ok)); [|intros _|done].
  { apply hoare_selenium_br, chrome_launch_open. }
  unfold extract_bio, extract_avatar.
  hoare_inv; auto using hoare_selenium_br, driver_get_open, wait_presence_open, driver_quit_open with hoare.
Qed.

End HandlerInvariants.

(** ** Witnesses *)

Lemma logkill_name_error_witness :
  logkill "Cutlass Black" "Vex" (demo_world ∅) =
  (Exn (NameError "name 'log_kill' is not defined"), demo_world ∅).
Proof. apply logkill_name_error; discriminate. Defined.

Lemma logkill_required_witness :
  logkill "" "Vex" (demo_world ∅) =
  (Ok tt, set_ia (answered (w_ia (demo_world ∅)) required_msg) (demo_world ∅)).
Proof. apply logkill_required; [by left|reflexivity]. Defined.

Lemma logkill_spec_refinement_witness :
  let w := demo_world {[ kill_log_db := {[ "kills" := Table kills_cols [] ]} ]} in
  ∃ w', logkill_with ("log_kill" :: module_globals) "Cutlass Black" "Vex" w = (Ok tt, w') ∧
    (∃ tb', kills_ok (w_fs w') tb' ([] ++ [(123456789%Z, "Cutlass Black", "Vex")])) ∧
    w_ia w' = answered (w_ia w) (kill_logged_msg "Ace" "Vex" "Cutlass Black") ∧
    "Vex" ⊑ₛ kill_logged_msg "Ace" "Vex" "Cutlass Black" ∧
    "Cutlass Black" ⊑ₛ kill_logged_msg "Ace" "Vex" "Cutlass Black".
Proof.
  intros w.
  apply (logkill_spec_refinement "Cutlass Black" "Vex" w (Table kills_cols []) []);
    [discriminate|discriminate|split_and!; reflexivity|vm_compute; split; discriminate
    |reflexivity|vm_compute; lia].
Defined.

Lemma killstats_no_table_witness :
  killstats (demo_world ∅) =
  (Exn (no_such_table "kills"), set_fs (<[kill_log_db := ∅]> ∅) (demo_world ∅)).
Proof. apply killstats_no_table. reflexivity. Defined.

Lemma killstats_empty_witness :
  let w := demo_world {[ kill_log_db := {[ "kills" := Table kills_cols [] ]} ]} in
  killstats w = (Ok tt, set_ia (answered (w_ia w) no_kill_data_msg) w).
Proof.
  intros w. apply (killstats_empty w (Table kills_cols [])); [split_and!; reflexivity|reflexivity].
Defined.

Lemma killstats_reports_witness :
  let rows := [[SInt 1; SText "Cutlass Black"; SText "Vex"]; [SInt 2; SText "Gladius"; SText "Orm"];
               [SInt 1; SText "Cutlass Black"; SText "Vex"]] in
  let w := demo_world {[ kill_log_db := {[ "kills" := Table kills_cols rows ]} ]} in
  ∃ msg, (∃ rest, msg = "Kill Stats:" +:+ nl +:+ rest) ∧
    (∀ r, r ∈ rows -> kill_block r (occ r rows) ⊑ₛ msg) ∧
    (String.length msg <= message_limit -> killstats w = (Ok tt, set_ia (answered (w_ia w) msg) w)) ∧
    (message_limit < String.length msg -> killstats w = (Exn too_long, w)).
Proof.
  intros rows w.
  apply (killstats_reports w (Table kills_cols rows)
           [(1%Z, "Cutlass Black", "Vex"); (2%Z, "Gladius", "Orm"); (1%Z, "Cutlass Black", "Vex")]);
    [split_and!; reflexivity|discriminate|reflexivity].
Defined.

Lemma lookup_launch_failure_witness :
  @lookup web_no_chrome "Ace" (demo_world ∅) =
  (Exn unbound_driver,
   World ∅ 1700000005000 [error_line (WebDriverException "unknown error: cannot find Chrome binary")]
     (Interaction demo_user (Some RespDeferred) [lookup_error_msg]) (Browser None None 0 [])).
Proof. apply (@lookup_launch_failure web_no_chrome "Ace" (demo_world ∅)
    (WebDriverException "unknown error: cannot find Chrome binary")); reflexivity. Defined.

Lemma lookup_nav_failure_witness :
  ∃ b', @lookup web_no_page "Ace" (demo_world ∅) =
    (Ok tt, World ∅ 1700000005000 [error_line (WebDriverException "unknown error: net::ERR_NAME_NOT_RESOLVED")]
       (Interaction demo_user (Some RespDeferred) [lookup_error_msg]) b') ∧
    quits_of 0 b' = 1.
Proof.
  apply (@lookup_nav_failure web_no_page "Ace" (demo_world ∅)
    (WebDriverException "unknown error: net::ERR_NAME_NOT_RESOLVED")); [reflexivity..|apply not_elem_of_nil|reflexivity].
Defined.

Lemma lookup_success_witness :
  let bio := @bio_result web_up (profile_url "Ace") 1700000005000 in
  let avatar := @avatar_result web_up (profile_url "Ace") bio.2 in
  ∃ b', @lookup web_up "Ace" (demo_world ∅) =
    (Ok tt, World ∅ avatar.2 []
       (Interaction demo_user (Some RespDeferred)
          ([] ++ [profile_info "Ace" bio.1 avatar.1 (profile_url "Ace")])) b') ∧
    quits_of 0 b' = 2.
Proof.
  apply (@lookup_success web_up "Ace" (demo_world ∅)); [reflexivity..|apply not_elem_of_nil|reflexivity|vm_compute; lia].
Defined.

Lemma hello_reply_witness :
  hello (demo_world ∅) =
  (Ok tt, set_ia (answered (new_interaction demo_user) ("Hello, " +:+ "Ace" +:+ "!")) (demo_world ∅)).
Proof. apply (hello_reply (demo_world ∅)); [reflexivity|simpl; lia]. Defined.


Lemma lookup_quit_failure_witness :
  let avatar := @avatar_result web_bad_quit (profile_url "Ace")
                  (@bio_result web_bad_quit (profile_url "Ace") 1700000005000).2 in
  ∃ b', @lookup web_bad_quit "Ace" (demo_world ∅) =
    (Ok tt, World ∅ avatar.2 [error_line (WebDriverException "chrome not reachable")]
       (Interaction demo_user (Some RespDeferred) [lookup_error_msg]) b') ∧
    quits_of 0 b' = 2.
Proof.
  apply (@lookup_quit_failure web_bad_quit "Ace" (demo_world ∅) (WebDriverException "chrome not reachable"));
    [reflexivity..|apply not_elem_of_nil|reflexivity].
Defined.
