(* ===== verification/Bot.v ===== *)
(** * Bot: the command tree, [on_ready], the module top level and the
    bot's life

    The module registers four slash commands on [bot.tree] (l. 55, 70, 88,
    106); discord.py runs the matching handler on each interaction and,
    when the handler raises, logs the exception through the tree's default
    [on_error] and goes on serving.  [on_ready] (l. 31-38) logs in and syncs
    the tree.  The module top level (l. 164-171) runs [init_db()] and then
    [bot.run(TOKEN)] only when the token is set.

    The bot's life is the step relation [step]: one boot step, then one
    step per event (the gateway's READY, or an interaction).  The
    invariants of the handlers proved in [Commands] lift to every reachable
    state by induction on [rtc step]. *)

From S2P Require Import Prelude PyCore Sqlite Discord Browser World Fixtures Persistence Commands.

(** ** The command tree *)

(** An interaction for one of the registered commands, with its options. *)
Inductive command :=
| CHello
| CAwardToken (ship_killed pilot_killed : string)
| CKillstats
| CLookup (rsi_handle : string).

(** The [name] each command is registered under. *)
Definition command_name (c : command) : string :=
  match c with
  | CHello => "hello"
  | CAwardToken _ _ => "award_token"
  | CKillstats => "killstats"
  | CLookup _ => "lookup"
  end.

(** The names registered by the decorators, in the order of the module. *)
Definition tree_commands : list string := ["hello"; "award_token"; "killstats"; "lookup"].

(** The line the tree's default [on_error] logs for a failed command. *)
Definition ignoring_line (c : command) : level * string :=
  (ERROR, "Ignoring exception in command '" +:+ command_name c +:+ "'").

(** ** [on_ready] and the module top level *)

(** [await bot.tree.sync()] returns the registered commands, or raises. *)
Definition tree_sync (failure : option exn) : PyM world (list string) :=
  match failure with Some e => raise e | None => mret tree_commands end.

Definition on_ready (bot_user : string) (sync_failure : option exn) : PyM world unit :=
  log INFO ("Logged in as " +:+ bot_user);;
  try_except
    (synced ← tree_sync sync_failure;
     log INFO ("Synced " +:+ py_str_int (Z.of_nat (length synced)) +:+ " command(s)."))
    (fun e => log ERROR ("Failed to sync commands: " +:+ exn_str e)).

(** [if TOKEN:] of an [os.getenv] result: [None] and [""] are false. *)
Definition py_truthy_opt (o : option string) : bool :=
  match o with Some s => py_truthy_str s | None => false end.

Definition token_missing_msg : string := "Bot token not found. Please set it in the .env file.".

(** l. 164-171; the result says whether [bot.run(TOKEN)] is reached. *)
Definition main (token : option string) : PyM world bool :=
  init_db;;
  if py_truthy_opt token then mret true
  else log ERROR token_missing_msg;; mret false.

(** ** The bot's life *)

Inductive phase := Booting | Serving | Exited.

Record bot := Bot { bot_world : world; bot_phase : phase }.

Inductive event :=
| EvReady (sync_failure : option exn)
| EvCommand (u : user) (c : command).

Section Life.
Context `{Web} (token : option string) (bot_user : string).

Definition dispatch (c : command) : PyM world unit :=
  match c with
  | CHello => hello
  | CAwardToken ship pilot => logkill ship pilot
  | CKillstats => killstats
  | CLookup h => lookup h
  end.

(** An interaction of user [u] arrives: its handler runs on a fresh
    interaction, and an exception it raises is logged, not propagated. *)
Definition handle_command (u : user) (c : command) : PyM world unit :=
  modify (set_ia (new_interaction u));;
  try_except (dispatch c) (fun _ => log (ignoring_line c).1 (ignoring_line c).2).

Definition handle_event (ev : event) : PyM world unit :=
  match ev with
  | EvReady f => on_ready bot_user f
  | EvCommand u c => handle_command u c
  end.

Definition boot_phase (r : res bool) : phase :=
  match r with Ok true => Serving | _ => Exited end.

Inductive step : bot -> bot -> Prop :=
| step_boot w : step (Bot w Booting) (Bot (main token w).2 (boot_phase (main token w).1))
| step_event w ev : step (Bot w Serving) (Bot (handle_event ev w).2 Serving).

Definition reachable (w0 : world) (b : bot) : Prop := rtc step (Bot w0 Booting) b.

(** The executable run: boot, then the events in order while serving. *)
Definition boot (w : world) : bot := Bot (main token w).2 (boot_phase (main token w).1).

Definition next (b : bot) (ev : event) : bot :=
  match bot_phase b with
  | Serving => Bot (handle_event ev (bot_world b)).2 Serving
  | _ => b
  end.

Definition run_bot (w0 : world) (evs : list event) : bot := foldl next (boot w0) evs.

End Life.

(** The kill log has no table [kills]. *)
Definition no_kills (fs : fsys) : Prop := table_of kill_log_db "kills" fs = None.

(** A day of the bot: READY, a lookup, a failed killstats, a lookup that
    finds no page, and the award command. *)
Definition demo_events : list event :=
  [EvReady None; EvCommand demo_user (CLookup "Ace"); EvCommand demo_user CKillstats;
   EvCommand demo_user (CLookup "Nobody"); EvCommand demo_user (CAwardToken "Cutlass Black" "Vex")].

(** ** Boot *)

Lemma kill_log_db_ne : kill_log_db ≠ tokens_db.
Proof. done. Qed.

(** C18: the module top level runs [init_db()] first and reaches
    [bot.run(TOKEN)] exactly when the token is set and non-empty;
    otherwise it logs "Bot token not found. Please set it in the .env
    file." and stops, with [awarded_tokens] created either way. *)
Theorem main_boot token w :
  let w1 := set_fs (<[tokens_db := with_awarded_tokens (default ∅ (w_fs w !! tokens_db))]> (w_fs w)) w in
  main token w =
  if py_truthy_opt token then (Ok true, w1)
  else (Ok false, World (w_fs w1) (w_clock w1) (w_log w1 ++ [(ERROR, token_missing_msg)]) (w_ia w1) (w_br w1)).
Proof. unfold main. rewrite run_bind, init_db_run. by destruct (py_truthy_opt token). Qed.

(** C24: [on_ready] logs the login, then the number of synced commands (the
    four of the tree) or the failure of [bot.tree.sync()]; it never raises
    an [Exception] itself. *)
Theorem on_ready_logs bot_user f w :
  (∀ e, f = Some e -> is_Exception e = true) ->
  on_ready bot_user f w =
  (Ok tt, World (w_fs w) (w_clock w)
     (w_log w ++ [(INFO, "Logged in as " +:+ bot_user);
                  match f with
                  | None => (INFO, "Synced 4 command(s).")
                  | Some e => (ERROR, "Failed to sync commands: " +:+ exn_str e)
                  end]) (w_ia w) (w_br w)).
Proof.
  intros Hf. unfold on_ready, tree_sync.
  destruct f as [e|]; run_w; [rewrite (Hf e eq_refl)|]; run_w; by rewrite <- app_assoc.
Qed.

(** What [main] returns: whether the token is truthy. *)
Lemma main_result token w : (main token w).1 = Ok (py_truthy_opt token).
Proof. unfold main. rewrite run_bind, init_db_run. by destruct (py_truthy_opt token). Qed.

Lemma boot_phase_ne r : boot_phase r ≠ Booting.
Proof. by destruct r as [[]|]. Qed.

(** The executable run is a behaviour of the step relation. *)
Lemma run_bot_reachable `{Web} token bot_user w0 evs :
  reachable token bot_user w0 (run_bot token bot_user w0 evs).
Proof.
  unfold run_bot. assert (Hb : reachable token bot_user w0 (boot token w0)) by (apply rtc_once; constructor).
  revert Hb. generalize (boot token w0) as b. induction evs as [|ev evs IH]; intros b Hb; simpl; [done|].
  apply IH. unfold next. destruct b as [w []]; simpl; [done| |done].
  eapply rtc_r; [exact Hb|constructor].
Qed.

(** ** Invariants of the bot's life *)

Section Invariants.
Context `{Web} (token : option string) (bot_user : string).
Implicit Types (P : world -> Prop).

(** A condition on the world that booting and every event keep holds in
    every reachable state. *)
Lemma reachable_world_inv P w0 b :
  ⦃ P ⦄ main token ⦃ P ⦄ -> (∀ ev, ⦃ P ⦄ handle_event bot_user ev ⦃ P ⦄) ->
  reachable token bot_user w0 b -> P w0 -> P (bot_world b).
Proof.
  intros Hm He Hr. apply (rtc_invariant (step token bot_user) (fun b => P (bot_world b)) (Bot w0 Booting) b); [|done].
  intros ? ? []; simpl; [apply Hm|apply He].
Qed.

(** The events keep every condition that replies, log lines, a fresh
    interaction, [killstats] and [lookup] keep. *)
Lemma hoare_handle_event P :
  (∀ A (m : PyM interaction A), ⦃ P ⦄ discord m ⦃ P ⦄) ->
  (∀ lvl msg, ⦃ P ⦄ log lvl msg ⦃ P ⦄) ->
  (∀ ia w, P w -> P (set_ia ia w)) ->
  ⦃ P ⦄ killstats ⦃ P ⦄ -> (∀ h, ⦃ P ⦄ lookup h ⦃ P ⦄) ->
  ∀ ev, ⦃ P ⦄ handle_event bot_user ev ⦃ P ⦄.
Proof.
  intros Hd Hl Hia Hk Hlk [f|u c].
  - unfold handle_event, on_ready, tree_sync. hoare_inv; auto.
  - unfold handle_event, handle_command. apply hoare_bind_inv; [apply hoare_modify; auto|intros _].
    apply hoare_try_except; [|auto]. destruct c; simpl; [apply hoare_hello|apply hoare_logkill| |]; auto.
Qed.

Lemma hoare_main_fs (Q : fsys -> Prop) :
  (∀ now fs, Q fs -> Q (with_connect tokens_db
     (_ ← execute now (CreateTableIfNotExists "awarded_tokens" awarded_tokens_cols) []; commit) fs).2) ->
  ⦃ on_fs Q ⦄ main token ⦃ on_fs Q ⦄.
Proof. intros HQ. unfold main, init_db. apply hoare_bind_inv; [by apply hoare_sql_fs|hoare_inv; auto with hoare]. Qed.

Lemma reachable_no_kills w0 b :
  no_kills (w_fs w0) -> reachable token bot_user w0 b -> no_kills (w_fs (bot_world b)).
Proof.
  intros H0 Hr. apply (reachable_world_inv (on_fs no_kills) w0 b); [| |done|done].
  - apply hoare_main_fs. intros now fs. unfold no_kills, table_of.
    by rewrite with_connect_other by apply kill_log_db_ne.
  - apply hoare_handle_event; auto using hoare_lookup_fs with hoare.
    apply hoare_killstats. intros now fs. unfold no_kills. by rewrite kills_query_tables.
Qed.

(** C6: no Chrome session outlives the bot's work: in every state the bot
    can reach, every session any [lookup] started has been quit, whatever
    Chrome and the site do (launch, load, waits and quits may fail). *)
Theorem bot_sessions_closed w0 b :
  sessions_closed (w_br w0) -> reachable token bot_user w0 b -> sessions_closed (w_br (bot_world b)).
Proof.
  intros H0 Hr. apply (reachable_world_inv (on_br sessions_closed) w0 b); [| |done|done].
  - unfold main, init_db. hoare_inv; auto with hoare.
  - apply hoare_handle_event; auto using hoare_killstats_br, lookup_sessions_closed with hoare.
Qed.

(** C9: started on a store without the table [kills], the bot never
    creates it, and in every state it can reach a [killstats] interaction
    gets no answer: the handler raises [no such table: kills], which the
    command tree logs. *)
Theorem killstats_never_answers w0 b u :
  no_kills (w_fs w0) -> reachable token bot_user w0 b ->
  let w := bot_world b in
  no_kills (w_fs w) ∧
  handle_command u CKillstats w =
  (Ok tt, World (<[kill_log_db := default ∅ (w_fs w !! kill_log_db)]> (w_fs w)) (w_clock w)
            (w_log w ++ [ignoring_line CKillstats]) (new_interaction u) (w_br w)).
Proof.
  intros H0 Hr w. pose proof (reachable_no_kills w0 b H0 Hr) as Hk. split; [done|].
  unfold handle_command. rewrite run_bind. unfold try_except. simpl.
  unfold killstats. rewrite run_bind, kills_query_no_table by done. done.
Qed.

(** C8: no command ever records a token award: once booted, the bot never
    writes [tokens.db] again, so the award log read back from it stays the
    one [init_db] left. *)
Theorem bot_awards_frozen w0 b :
  reachable token bot_user w0 b -> bot_phase b ≠ Booting ->
  w_fs (bot_world b) !! tokens_db = w_fs (bot_world (boot token w0)) !! tokens_db ∧
  awards (w_fs (bot_world b)) = awards (w_fs (bot_world (boot token w0))).
Proof.
  intros Hr. set (d := w_fs (bot_world (boot token w0)) !! tokens_db).
  cut (match bot_phase b with Booting => bot_world b = w0 | _ => w_fs (bot_world b) !! tokens_db = d end).
  { intros Hc Hb. destruct (bot_phase b); [done| |]; split; try done; unfold awards, table_of; by rewrite Hc. }
  apply (rtc_invariant (step token bot_user) (fun b => match bot_phase b with
                                   | Booting => bot_world b = w0
                                   | _ => w_fs (bot_world b) !! tokens_db = d end) (Bot w0 Booting) b);
    [|exact Hr|done].
  intros ? ? []; simpl.
  - intros ->. by destruct (boot_phase _) eqn:E; [by apply boot_phase_ne in E| |].
  - apply (hoare_handle_event (on_fs (fun fs => fs !! tokens_db = d))); auto using hoare_lookup_fs with hoare.
    apply hoare_killstats. intros now fs Hfs. by rewrite with_connect_other.
Qed.

(** C17: without a token (unset or empty) the bot boots, creates the award
    table and stops: no state it can reach serves a command. *)
Theorem no_token_never_serves w0 b :
  py_truthy_opt token = false -> reachable token bot_user w0 b -> bot_phase b ≠ Serving.
Proof.
  intros Ht Hr. apply (rtc_invariant (step token bot_user) (fun b => bot_phase b ≠ Serving) (Bot w0 Booting) b);
    [|exact Hr|done].
  intros ? ? [w|w ev]; simpl; [|done]. intros _. by rewrite main_result, Ht.
Qed.


End Invariants.

(** ** Witnesses *)

Lemma on_ready_logs_witness :
  on_ready "TokenTrackr#4821" (Some (HTTPException "429 Too Many Requests")) (demo_world ∅) =
  (Ok tt, World ∅ 1700000005000
     [(INFO, "Logged in as TokenTrackr#4821"); (ERROR, "Failed to sync commands: 429 Too Many Requests")]
     (new_interaction demo_user) (Browser None None 0 [])).
Proof. apply on_ready_logs. by intros e [= <-]. Defined.

Lemma bot_sessions_closed_witness :
  sessions_closed (w_br (bot_world (@run_bot web_up (Some "tok") "TokenTrackr#4821" (demo_world ∅) demo_events))).
Proof.
  apply (@bot_sessions_closed web_up (Some "tok") "TokenTrackr#4821" (demo_world ∅)).
  - intros d Hd. simpl in Hd. lia.
  - apply run_bot_reachable.
Defined.

Lemma killstats_never_answers_witness :
  let w := bot_world (@run_bot web_up (Some "tok") "TokenTrackr#4821" (demo_world ∅) demo_events) in
  no_kills (w_fs w) ∧
  @handle_command web_up demo_user CKillstats w =
  (Ok tt, World (<[kill_log_db := default ∅ (w_fs w !! kill_log_db)]> (w_fs w)) (w_clock w)
            (w_log w ++ [ignoring_line CKillstats]) (new_interaction demo_user) (w_br w)).
Proof.
  apply (@killstats_never_answers web_up (Some "tok") "TokenTrackr#4821" (demo_world ∅)).
  - reflexivity.
  - apply run_bot_reachable.
Defined.

Lemma bot_awards_frozen_witness :
  let b := @run_bot web_up (Some "tok") "TokenTrackr#4821" (demo_world ∅) demo_events in
  w_fs (bot_world b) !! tokens_db = w_fs (bot_world (boot (Some "tok") (demo_world ∅))) !! tokens_db ∧
  awards (w_fs (bot_world b)) = awards (w_fs (bot_world (boot (Some "tok") (demo_world ∅)))).
Proof.
  apply (@bot_awards_frozen web_up (Some "tok") "TokenTrackr#4821" (demo_world ∅)).
  - apply run_bot_reachable.
  - vm_compute. discriminate.
Defined.

Lemma no_token_never_serves_witness :
  bot_phase (@run_bot web_up (Some "") "TokenTrackr#4821" (demo_world ∅) demo_events) ≠ Serving.
Proof.
  apply (@no_token_never_serves web_up (Some "") "TokenTrackr#4821" (demo_world ∅)).
  - reflexivity.
  - apply run_bot_reachable.
Defined.

