(* ===== verification/Report.v ===== *)
(** * Report: reading the reply of [killstats] back

    The reply of [killstats] (l. 96-100) is text for people, but its layout
    is fixed: the line "Kill Stats:", then for every group four labelled
    lines ("User ID: ", "  Ship: ", "  Pilot: ", "  Kills: ") and a blank
    line.  [parse_report] reads that layout back.  Reading recovers the
    result of the [GROUP BY] query when no ship or pilot name holds a line
    break; a name that does can forge the groups that follow it, for every
    log.  The file also states what the query itself (l. 92-93) returns on
    a kill log, as a set of rows: [SELECT ... GROUP BY] fixes no order.
    Numbers are printed by Python's [str(int)], modelled by stdpp's
    [pretty]; [parse_Z] reads a decimal numeral. *)

From S2P Require Import Prelude PyCore Sqlite Discord World Fixtures Persistence Commands.

(** ** Decimal numerals *)

Definition nl_char : ascii := Ascii.ascii_of_nat 10.

Definition digit_val (c : ascii) : option N :=
  let n := Ascii.nat_of_ascii c in
  if decide (48 <= n ∧ n <= 57) then Some (N.of_nat (n - 48)) else None.

Fixpoint digits_from (acc : N) (l : list ascii) : option N :=
  match l with
  | [] => Some acc
  | c :: l' => d ← digit_val c; digits_from (10 * acc + d)%N l'
  end.

(** A non-empty run of digits. *)
Definition parse_N (l : list ascii) : option N :=
  match l with [] => None | _ => digits_from 0 l end.

(** An optional minus sign and a numeral. *)
Definition parse_Z (l : list ascii) : option Z :=
  match l with
  | c :: l' => if decide (c = "-"%char) then n ← parse_N l'; Some (- Z.of_N n)%Z
               else Z.of_N <$> parse_N l
  | [] => None
  end.

(** ** Lines and labelled fields *)

(** The line up to the next line break, and what follows the break. *)
Fixpoint take_line (l : list ascii) : option (list ascii * list ascii) :=
  match l with
  | [] => None
  | c :: l' =>
      if decide (c = nl_char) then Some ([], l')
      else '(ln, r) ← take_line l'; Some (c :: ln, r)
  end.

Fixpoint strip_prefix (p l : list ascii) : option (list ascii) :=
  match p, l with
  | [], _ => Some l
  | c :: p', d :: l' => if decide (c = d) then strip_prefix p' l' else None
  | _ :: _, [] => None
  end.

(** A line [label ++ value]: the value and what follows the line. *)
Definition parse_field (label : string) (l : list ascii) : option (list ascii * list ascii) :=
  r ← strip_prefix (chars label) l; take_line r.

(** ** The report *)

(** A group as the reply shows it: killer, ship, pilot, and count. *)
Definition kill_stat : Type := (Z * string * string) * Z.

Definition parse_block (l : list ascii) : option (kill_stat * list ascii) :=
  '(u, l1) ← parse_field "User ID: " l;
  '(sh, l2) ← parse_field "  Ship: " l1;
  '(pi, l3) ← parse_field "  Pilot: " l2;
  '(k, l4) ← parse_field "  Kills: " l3;
  '(blank, l5) ← take_line l4;
  uid ← parse_Z u;
  n ← parse_Z k;
  if decide (blank = []) then Some ((uid, of_chars sh, of_chars pi, n), l5) else None.

(** The blocks to the end; [fuel] bounds their number. *)
Fixpoint parse_blocks (fuel : nat) (l : list ascii) : option (list kill_stat) :=
  match l, fuel with
  | [], _ => Some []
  | _ :: _, 0 => None
  | _ :: _, S f => '(b, r) ← parse_block l; bs ← parse_blocks f r; Some (b :: bs)
  end.

(** The header line, then the blocks; a block takes at least one
    character, so the length of the text is enough fuel. *)
Definition parse_report (msg : string) : option (list kill_stat) :=
  r ← strip_prefix (chars ("Kill Stats:" +:+ nl)) (chars msg);
  parse_blocks (length r) r.

(** The row of a kill as [killstats] reads it: [(user_id, ship, pilot)]. *)
Definition kill_row (k : Z * string * string) : list sqlval :=
  let '(u, sh, pi) := k in [SInt u; SText sh; SText pi].

(** The groups of the kill log [ks] as [GROUP BY] returns them. *)
Definition kill_groups (ks : list (Z * string * string)) : list kill_stat :=
  (fun '(k, n) => (k, Z.of_nat n)) <$> group_count ks.

(** No line break in a ship or pilot name. *)
Definition one_line_names (ks : list (Z * string * string)) : Prop :=
  Forall (fun '(_, sh, pi) => (nl_char ∉ chars sh) ∧ (nl_char ∉ chars pi)) ks.

#[global] Instance one_line_names_dec ks : Decision (one_line_names ks).
Proof. apply Forall_dec. intros [[u sh] pi]. apply _. Defined.

(** The world [w] with [kill_log.db] holding the kill log [ks]. *)
Definition kill_world (w : world) (ks : list (Z * string * string)) : world :=
  set_fs (<[kill_log_db := {[ "kills" := Table kills_cols (kill_row <$> ks) ]}]> (w_fs w)) w.

(** A row of the query's result as a group. *)
Definition stat_of (r : list sqlval) : option kill_stat :=
  match r with [SInt u; SText sh; SText pi; SInt n] => Some ((u, sh, pi), n) | _ => None end.

(** ** Numerals round trip *)

Lemma digit_val_char m : (m < 10)%N -> digit_val (pretty_N_char m) = Some m.
Proof.
  intros Hm. assert (m = 0 ∨ m = 1 ∨ m = 2 ∨ m = 3 ∨ m = 4 ∨ m = 5 ∨ m = 6 ∨ m = 7 ∨ m = 8 ∨ m = 9)%N
    as Hcases by lia.
  by repeat destruct Hcases as [->|Hcases]; [..|subst].
Qed.

(** [pretty_N_go x s] puts the digits of [x] in front of [s]. *)
Lemma pretty_N_go_digits x s :
  ∃ ds, chars (pretty_N_go x s) = ds ++ chars s ∧
    ∀ acc l, digits_from acc (ds ++ l) = digits_from (acc * 10 ^ N.of_nat (length ds) + x)%N l.
Proof.
  revert s. induction (N.lt_wf_0 x) as [x _ IH]; intros s.
  destruct (decide (x = 0)%N) as [->|Hx].
  - exists []. rewrite pretty_N_go_0. split; [done|]. intros acc l. simpl. f_equal. lia.
  - rewrite pretty_N_go_step by lia.
    destruct (IH (x `div` 10)%N ltac:(apply N.div_lt; lia) (String (pretty_N_char (x `mod` 10)) s))
      as (ds & Hds & Hval).
    exists (ds ++ [pretty_N_char (x `mod` 10)]). split; [by rewrite Hds, <- app_assoc|].
    intros acc l. rewrite <- app_assoc, Hval. simpl.
    rewrite digit_val_char by (apply N.mod_lt; lia). simpl. f_equal.
    rewrite length_app, Nat2N.inj_add, N.pow_add_r. simpl.
    pose proof (N.div_mod x 10 ltac:(lia)). lia.
Qed.

(** Reading back what [str(n)] prints gives [n]. *)
Lemma parse_pretty_N (n : N) : parse_N (chars (pretty n)) = Some n.
Proof.
  unfold pretty, pretty_N. case_decide as Hn; [by subst|].
  destruct (pretty_N_go_digits n "") as (ds & Hds & Hval). rewrite Hds, app_nil_r.
  specialize (Hval 0%N []). rewrite app_nil_r in Hval.
  destruct ds as [|c ds]; [simpl in Hval; injection Hval; lia|]. simpl in *. rewrite Hval. f_equal; lia.
Qed.

Lemma parse_N_minus l n : parse_N l = Some n -> head l ≠ Some "-"%char.
Proof. destruct l as [|c l]; [done|]. simpl. intros H [= ->]. by vm_compute in H. Qed.

Lemma parse_pretty_Z (z : Z) : parse_Z (chars (pretty z)) = Some z.
Proof.
  destruct z as [|p|p]; [done| |].
  - pose proof (parse_pretty_N (N.pos p)) as H. pose proof (parse_N_minus _ _ H) as Hm.
    change (pretty (Z.pos p)) with (pretty (N.pos p)). unfold parse_Z.
    destruct (chars (pretty (N.pos p))) as [|c l] eqn:E; [done|].
    rewrite decide_False by (intros ->; by apply Hm). unfold parse_N in *. by rewrite H.
  - change (chars (pretty (Z.neg p))) with ("-"%char :: chars (pretty (N.pos p))).
    unfold parse_Z. rewrite decide_True by done. by rewrite parse_pretty_N.
Qed.

(** ** Lines round trip *)

Lemma take_line_app ln r : nl_char ∉ ln -> take_line (ln ++ nl_char :: r) = Some (ln, r).
Proof.
  induction ln as [|c ln IH]; intros Hn; simpl; [done|].
  rewrite not_elem_of_cons in Hn. destruct Hn as [Hc Hn].
  rewrite decide_False by (intros ->; done). by rewrite IH.
Qed.

Lemma strip_prefix_app p l : strip_prefix p (p ++ l) = Some l.
Proof. induction p as [|c p IH]; simpl; [done|]. by rewrite decide_True. Qed.

Lemma parse_field_app label v r :
  nl_char ∉ v -> parse_field label (chars label ++ v ++ nl_char :: r) = Some (v, r).
Proof. intros Hv. unfold parse_field. rewrite strip_prefix_app. simpl. by apply take_line_app. Qed.

Lemma digits_from_one_line acc l n : digits_from acc l = Some n -> nl_char ∉ l.
Proof.
  revert acc. induction l as [|c l IH]; intros acc H; [apply not_elem_of_nil|]. simpl in H.
  destruct (digit_val c) eqn:E; [|done]. apply not_elem_of_cons. split; [|by eapply IH].
  intros <-. by vm_compute in E.
Qed.

Lemma parse_Z_one_line l z : parse_Z l = Some z -> nl_char ∉ l.
Proof.
  destruct l as [|c l]; [done|]. unfold parse_Z, parse_N. case_decide; subst.
  - destruct l as [|c' l]; [done|]. destruct (digits_from 0 (c' :: l)) eqn:E; [|done].
    intros _. apply not_elem_of_cons. split; [done|]. by eapply digits_from_one_line.
  - destruct (digits_from 0 (c :: l)) eqn:E; [|done]. intros _. by eapply digits_from_one_line.
Qed.

(** The digits of a number hold no line break. *)
Lemma pretty_Z_one_line (z : Z) : nl_char ∉ chars (pretty z).
Proof. exact (parse_Z_one_line _ _ (parse_pretty_Z z)). Qed.

(** ** Blocks round trip *)

Lemma chars_nl : chars nl = [nl_char].
Proof. done. Qed.

Lemma field_chars label v t r :
  chars (label +:+ v +:+ nl +:+ t) ++ r = chars label ++ chars v ++ nl_char :: chars t ++ r.
Proof. by rewrite !chars_app, chars_nl, <- !app_assoc. Qed.

Lemma parse_field_chars label v t r :
  nl_char ∉ chars v ->
  parse_field label (chars (label +:+ v +:+ nl +:+ t) ++ r) = Some (chars v, chars t ++ r).
Proof. intros Hv. rewrite field_chars. by apply parse_field_app. Qed.

(** The block [killstats] prints for a group reads back as that group. *)
Lemma parse_block_stat r st b rest :
  stat_of r = Some st -> nl_char ∉ chars st.1.1.2 -> nl_char ∉ chars st.1.2 ->
  stat_block r = Ok b -> parse_block (chars b ++ rest) = Some (st, rest).
Proof.
  destruct r as [|[u| | |] [|[|sh| |] [|[|pi| |] [|[n| | |] []]]]]; intros Hst; simplify_eq/=.
  intros Hsh Hpi [= <-]. unfold parse_block.
  rewrite parse_field_chars by apply pretty_Z_one_line. cbn [mbind option_bind].
  rewrite parse_field_chars by done. cbn [mbind option_bind].
  rewrite parse_field_chars by done. cbn [mbind option_bind].
  rewrite parse_field_chars by apply pretty_Z_one_line. cbn [mbind option_bind].
  rewrite chars_nl. cbn. rewrite !parse_pretty_Z. cbn. by rewrite !of_chars_chars.
Qed.

Lemma stat_block_nonempty r b : stat_block r = Ok b -> chars b ≠ [].
Proof. destruct r as [|a [|b' [|c [|d r]]]]; intros; by simplify_eq/=. Qed.

Lemma parse_block_nil : parse_block [] = None.
Proof. done. Qed.

(** The loop of l. 98-99 appends the blocks; reading them back gives the
    groups, in order. *)
Lemma stats_message_parse acc rows sts m :
  mapM stat_of rows = Some sts -> Forall (fun st => (nl_char ∉ chars st.1.1.2) ∧ (nl_char ∉ chars st.1.2)) sts ->
  stats_message acc rows = Ok m ->
  ∃ body, chars m = chars acc ++ body ∧ length rows <= length body ∧
    ∀ fuel, length rows <= fuel -> parse_blocks fuel body = Some sts.
Proof.
  revert acc sts. induction rows as [|r rows IH]; intros acc sts Hm Hn Hs.
  - simplify_eq/=. exists []. rewrite app_nil_r. split_and!; [done|simpl; lia|]. by intros [|f].
  - simpl in Hm. apply bind_Some in Hm as (st & Hr & Hm).
    apply bind_Some in Hm as (sts' & Hrs & [= <-]).
    apply Forall_cons in Hn as [[Hsh Hpi] Hn].
    simpl in Hs. destruct (stat_block r) as [b|e] eqn:Hb; [|done].
    destruct (IH (acc +:+ b) sts' Hrs Hn Hs) as (body & Hbody & Hlen & Hparse).
    exists (chars b ++ body). split_and!; [by rewrite Hbody, chars_app, app_assoc| |].
    { rewrite length_app. pose proof (stat_block_nonempty r b Hb). destruct (chars b); simpl in *; [done|lia]. }
    intros [|f] Hf; [simpl in Hf; lia|].
    pose proof (parse_block_stat r st b body Hr Hsh Hpi Hb) as Hblk.
    destruct (chars b ++ body) as [|c l] eqn:E; [by rewrite parse_block_nil in Hblk|].
    simpl. rewrite Hblk. simpl. rewrite Hparse by (simpl in Hf; lia). done.
Qed.

(** The rows of a kill log and the groups of the query. *)
Lemma kill_rows_of rows ks : mapM kill_of_row rows = Some ks -> rows = kill_row <$> ks.
Proof.
  intros Hm%mapM_Some_1. induction Hm as [|r k rs ks Hr _ IH]; [done|]. simpl. f_equal; [|done].
  destruct r as [|[] [|[] [|[] []]]]; by simplify_eq/=.
Qed.

#[local] Instance kill_row_inj : Inj (=) (=) kill_row.
Proof. intros [[u1 s1] p1] [[u2 s2] p2]. by intros [= -> -> ->]. Qed.

(** The rows the query returns on a kill log: each distinct triple, as a
    row, with its count. *)
Lemma stats_rows_log tb ks :
  mapM kill_of_row (tbl_rows tb) = Some ks ->
  stats_rows (tbl_rows tb) = (fun '(k, n) => kill_row k ++ [SInt (Z.of_nat n)]) <$> group_count ks.
Proof.
  intros Hm. pose proof (kill_rows_of _ ks Hm) as Hr. unfold stats_rows.
  rewrite (kills_rows_project tb ks Hm), Hr.
  rewrite group_count_fmap by apply _. change (map ?f ?l) with (f <$> l).
  rewrite <- list_fmap_compose. apply list_fmap_ext. by intros ? [k n] _.
Qed.

Lemma stats_rows_groups tb ks :
  mapM kill_of_row (tbl_rows tb) = Some ks ->
  mapM stat_of (stats_rows (tbl_rows tb)) = Some (kill_groups ks).
Proof.
  intros Hm. rewrite (stats_rows_log tb ks Hm). unfold kill_groups.
  apply mapM_Some_2, Forall2_fmap, Forall_Forall2_diag, Forall_forall.
  by intros [[[u sh] pi] n] _.
Qed.

(** Every group of a log whose names are one line has one-line names. *)
Lemma kill_groups_one_line ks :
  one_line_names ks ->
  Forall (fun st => (nl_char ∉ chars st.1.1.2) ∧ (nl_char ∉ chars st.1.2)) (kill_groups ks).
Proof.
  unfold one_line_names, kill_groups. rewrite !Forall_forall. intros Hks st.
  intros ([k n] & -> & Hin)%list_elem_of_fmap.
  assert (Hk : k ∈ ks) by (apply group_count_keys, list_elem_of_fmap; by exists (k, n)).
  destruct k as [[u sh] pi]. apply (Hks _ Hk).
Qed.

Lemma kill_groups_nil ks : kill_groups ks = [] -> ks = [].
Proof.
  unfold kill_groups. intros Hg%fmap_nil_inv. destruct ks as [|k ks]; [done|].
  assert (Hk : k ∈ (group_count (k :: ks)).*1) by (apply group_count_keys; left).
  rewrite Hg in Hk. by apply elem_of_nil in Hk.
Qed.

(** ** The reply reads back *)

(** C15: when [killstats] answers on a kill log whose ship and pilot names
    are one line each, the reply it appends to the interaction reads back,
    by [parse_report], as exactly the groups of the log: each distinct
    [(user_id, ship, pilot)] with its number of kills, in order of first
    occurrence. *)
Theorem killstats_reply_roundtrip w tb ks w' :
  kills_ok (w_fs w) tb ks -> one_line_names ks -> killstats w = (Ok tt, w') ->
  ∃ msg, ia_messages (w_ia w') = ia_messages (w_ia w) ++ [msg] ∧
    (ks ≠ [] -> parse_report msg = Some (kill_groups ks)).
Proof.
  intros (Ht & Hcols & Hrows) Hone. unfold killstats. rewrite run_bind, (kills_query_run w tb Ht Hcols).
  pose proof (stats_rows_groups tb ks Hrows) as Hg.
  destruct (stats_rows (tbl_rows tb)) as [|r rs] eqn:Hs.
  - intros ->%reply_sent. exists no_kill_data_msg. split; [done|].
    intros Hks. exfalso. apply Hks, kill_groups_nil. by injection Hg.
  - destruct (stats_message ("Kill Stats:" +:+ nl) (r :: rs)) as [m|e] eqn:Hm; [|done].
    intros ->%reply_sent. exists m. split; [done|]. intros _.
    destruct (stats_message_parse _ _ _ _ Hg (kill_groups_one_line ks Hone) Hm)
      as (body & Hbody & Hlen & Hparse).
    unfold parse_report. rewrite Hbody, strip_prefix_app. simpl. by apply Hparse.
Qed.

(** ** The query and forged replies *)

Lemma mapM_kill_rows ks : mapM kill_of_row (kill_row <$> ks) = Some ks.
Proof.
  apply mapM_Some_2, Forall2_fmap_l, Forall_Forall2_diag, Forall_forall. by intros [[u sh] pi] _.
Qed.

Lemma kill_world_kills w ks : kills_ok (w_fs (kill_world w ks)) (Table kills_cols (kill_row <$> ks)) ks.
Proof.
  unfold kills_ok, table_of, kill_world. simpl. rewrite lookup_insert_eq. simpl.
  rewrite lookup_singleton_eq. split_and!; [done|done|exact (mapM_kill_rows ks)].
Qed.

(** The row of a group is injective: distinct groups give distinct rows. *)
#[local] Instance group_row_inj :
  Inj (=) (=) (fun '(k, n) => kill_row k ++ [SInt (Z.of_nat n)]).
Proof.
  intros [k n] [k' n'] H. apply app_inj_tail in H as [Hk Hn].
  apply (inj kill_row) in Hk as ->. injection Hn as Hn. f_equal. lia.
Qed.







(** C14: run on a kill log, the module's query (l. 92-93) returns each
    distinct [(user_id, ship_killed, pilot_killed)] of the log exactly once,
    followed by its number of rows, and nothing else, in some order; the
    store is not changed. *)
Theorem kills_query_groups w tb ks :
  kills_ok (w_fs w) tb ks ->
  ∃ rows, sql (fun now => with_connect kill_log_db (execute now kills_query [])) w = (Ok rows, w) ∧
    NoDup rows ∧ ∀ r, r ∈ rows <-> ∃ k, k ∈ ks ∧ r = kill_row k ++ [SInt (Z.of_nat (occ k ks))].
Proof.
  intros (Ht & Hc & Hm). exists (stats_rows (tbl_rows tb)). split; [by apply kills_query_run|].
  rewrite (stats_rows_log tb ks Hm). destruct (group_count_spec ks) as [Hnd Hg]. split.
  - apply NoDup_fmap_2; [apply _|]. by apply NoDup_fmap_1 in Hnd.
  - intros r. rewrite list_elem_of_fmap. split.
    + intros ([k n] & -> & [Hk ->]%Hg). eauto.
    + intros (k & Hk & ->). exists (k, occ k ks). split; [done|]. by apply Hg.
Qed.

(** ** Witnesses *)

Lemma killstats_reply_roundtrip_witness :
  let ks := [(1%Z, "Cutlass Black", "Vex"); (2%Z, "Gladius", "Orm"); (1%Z, "Cutlass Black", "Vex")] in
  let w := demo_world {[ kill_log_db := {[ "kills" := Table kills_cols (kill_row <$> ks) ]} ]} in
  ∃ msg, ia_messages (w_ia (killstats w).2) = ia_messages (w_ia w) ++ [msg] ∧
    (ks ≠ [] -> parse_report msg = Some [((1%Z, "Cutlass Black", "Vex"), 2%Z); ((2%Z, "Gladius", "Orm"), 1%Z)]).
Proof.
  intros ks w. apply (killstats_reply_roundtrip w (Table kills_cols (kill_row <$> ks)) ks).
  - split_and!; reflexivity.
  - apply (bool_decide_unpack (one_line_names ks)). by vm_compute.
  - by vm_compute.
Defined.


Lemma kills_query_groups_witness :
  let ks := [(1%Z, "Cutlass Black", "Vex"); (2%Z, "Gladius", "Orm"); (1%Z, "Cutlass Black", "Vex")] in
  let w := kill_world (demo_world ∅) ks in
  ∃ rows, sql (fun now => with_connect kill_log_db (execute now kills_query [])) w = (Ok rows, w) ∧
    NoDup rows ∧ ∀ r, r ∈ rows <-> ∃ k, k ∈ ks ∧ r = kill_row k ++ [SInt (Z.of_nat (occ k ks))].
Proof. intros ks w. apply (kills_query_groups w (Table kills_cols (kill_row <$> ks)) ks), kill_world_kills. Defined.
