(* ===== verification/Liveness.v ===== *)
(** * Liveness: every [/lookup] is answered

    [lookup] (l. 106-161 of [token_trackr.py]) defers the interaction and
    then talks to Chrome, whose failures it catches in [except Exception].
    Whatever Chrome and the site do, as long as they fail with Selenium's
    exceptions ([web_exceptions]), the user gets exactly one followup:
    the profile block or the generic failure message, even when the
    [finally] clause itself raises.  The proof runs on triples with a
    result ([triple] of [PyCore]): the [try] must know whether the body
    raised before or after its followup.  Nothing is claimed about how
    long a lookup takes: the model gives Chrome's launch, page load and
    quit no duration, and the program sets no overall timeout. *)

From S2P Require Import Prelude PyCore Discord Browser World Fixtures Commands.

(** The interaction is deferred and has the messages [M]. *)
Definition pending (M : list string) (ia : interaction) : Prop :=
  ia_response ia = Some RespDeferred ∧ ia_messages ia = M.

Definition pending_w (M : list string) (w : world) : Prop := pending M (w_ia w).

(** The two answers [lookup] can give. *)
Definition lookup_reply (rsi_handle msg : string) : Prop :=
  msg = lookup_error_msg ∨ ∃ bio avatar, msg = profile_info rsi_handle bio avatar (profile_url rsi_handle).

(** One followup more than [M], and it is one of the two answers. *)
Definition answered (rsi_handle : string) (M : list string) (ia : interaction) : Prop :=
  ia_response ia = Some RespDeferred ∧
  ∃ msg, ia_messages ia = M ++ [msg] ∧ lookup_reply rsi_handle msg.

Definition answered_once (rsi_handle : string) (M : list string) (w : world) : Prop :=
  answered rsi_handle M (w_ia w).

(** What the body of the [try] leaves when it raises. *)
Definition body_exn (M : list string) (e : exn) (w : world) : Prop :=
  is_Exception e = true ∧ pending_w M w.

(** ** Operations on the session and on the interaction *)

Section Steps.
Context `{Web}.

(** A session operation leaves the interaction alone and raises
    [Exception]s only. *)
Lemma triple_selenium {A} (m : PyM (Z * browser) A) (F : interaction -> Prop) (E : exn -> world -> Prop) :
  raises_Exceptions m -> (∀ e w, is_Exception e = true -> F (w_ia w) -> E e w) ->
  triple (fun w => F (w_ia w)) (selenium m) (fun _ w => F (w_ia w)) E.
Proof.
  intros He HE. apply triple_zoom. intros w0 HF s <-. specialize (He (w_clock w0, w_br w0)). simpl in *.
  destruct (m (w_clock w0, w_br w0)) as [[a|e] [t b]]; simpl in *; [done|]. by apply HE.
Qed.

(** [interaction.followup.send(msg)] after [defer]: the message is sent,
    or it is too long and [HTTPException] is raised. *)
Lemma triple_followup M msg :
  triple (pending_w M) (discord (followup_send msg))
    (fun _ w => ia_response (w_ia w) = Some RespDeferred ∧ ia_messages (w_ia w) = M ++ [msg])
    (fun e w => e = too_long ∧ message_limit < String.length msg ∧ pending_w M w).
Proof.
  apply triple_zoom. intros w0 (Hr & Hm) s <-. unfold followup_send. simpl. rewrite Hr.
  case_decide; simpl; [by rewrite Hm|split_and!; [done|lia|done]].
Qed.

(** The waits for the bio and the avatar never raise: a timeout is caught
    and replaced by the fall-back. *)
Lemma triple_scrape {B} pr (f : node -> B) (fb : B) M (E : exn -> world -> Prop) :
  triple (pending_w M) (try_except (el ← selenium (wait_presence pr); mret (f el)) (fun _ => mret fb))
    (fun _ => pending_w M) E.
Proof.
  apply (triple_try_except _ _ _ (body_exn M)).
  - apply (triple_bind _ (fun _ => pending_w M)); [|intros el; apply triple_ret; by intros w Hw].
    apply (triple_selenium _ (pending M)); [apply wait_presence_exn|by intros e w ? ?].
  - intros e _. apply triple_ret. by intros w [_ ?].
  - by intros e w He [He' _]; rewrite He in He'.
Qed.

(** The generic failure message fits in one message. *)
Lemma lookup_error_msg_short : String.length lookup_error_msg <= message_limit.
Proof. vm_compute. lia. Qed.

(** The [except] clause (l. 156-158) always answers. *)
Lemma triple_handler h M e :
  triple (body_exn M e) (lookup_handler e) (fun _ => answered_once h M) (fun _ _ => False).
Proof.
  unfold lookup_handler. apply (triple_bind _ (fun _ => pending_w M)).
  { intros w [_ Hp]. exact Hp. }
  intros _. eapply triple_weaken; [done| | |apply triple_followup].
  - intros _ w (Hr & Hm). split; [done|]. exists lookup_error_msg. split; [done|by left].
  - intros e' w (_ & Hl & _). pose proof lookup_error_msg_short. lia.
Qed.

(** [await interaction.response.defer()] (l. 109) on a fresh interaction. *)
Lemma triple_defer M (E : exn -> world -> Prop) :
  triple (fun w => ia_response (w_ia w) = None ∧ ia_messages (w_ia w) = M) (discord defer) (fun _ => pending_w M) E.
Proof. apply triple_zoom. intros w0 (Hr & Hm) s <-. unfold defer. simpl. by rewrite Hr. Qed.

Context (Hweb : web_exceptions).

(** The body of the [try] (l. 111-154): it answers with the profile, or
    raises an [Exception] before answering. *)
Lemma triple_lookup_body h M :
  triple (pending_w M) (lookup_body h) (fun _ => answered_once h M) (body_exn M).
Proof.
  unfold lookup_body.
  apply (triple_bind _ (fun _ => pending_w M)); [apply (triple_selenium _ (pending M)); [by apply chrome_launch_exn|done]|intros _].
  apply (triple_bind _ (fun _ => pending_w M)); [apply (triple_selenium _ (pending M)); [by apply driver_get_exn|done]|intros _].
  apply (triple_bind _ (fun _ => pending_w M)); [apply triple_scrape|intros bio].
  apply (triple_bind _ (fun _ => pending_w M)); [apply triple_scrape|intros avatar].
  apply (triple_bind _ (fun _ => pending_w M)); [apply (triple_selenium _ (pending M)); [by apply driver_quit_exn|done]|intros _].
  eapply triple_weaken; [done| | |apply triple_followup].
  - intros _ w (Hr & Hm). split; [done|]. eexists. split; [done|right; eauto].
  - by intros e w (-> & _ & Hp).
Qed.

(** [driver.quit()] in [finally] (l. 159-161) keeps the answer, whether it
    returns or raises. *)
Lemma triple_finally_quit h M :
  triple (answered_once h M) (selenium driver_quit) (fun _ => answered_once h M) (fun _ => answered_once h M).
Proof. apply (triple_selenium _ (answered h M)); [by apply driver_quit_exn|intros e w _ Hw; exact Hw]. Qed.

(** C7: whatever Chrome and the site do, provided they fail with Selenium's
    exceptions, [/lookup] on a fresh interaction answers the user exactly
    once: one followup, which is the profile block or the generic failure
    message.  This holds also when [lookup] ends in an exception, as when
    its [finally] clause raises [UnboundLocalError]. *)
Theorem lookup_answers rsi_handle w :
  ia_response (w_ia w) = None -> answered_once rsi_handle (ia_messages (w_ia w)) (lookup rsi_handle w).2.
Proof.
  intros Hr. set (M := ia_messages (w_ia w)).
  assert (Ht : triple (fun w' => ia_response (w_ia w') = None ∧ ia_messages (w_ia w') = M)
                 (lookup rsi_handle) (fun _ => answered_once rsi_handle M) (fun _ => answered_once rsi_handle M)).
  { unfold lookup.
    apply (triple_bind _ (fun _ w' => ia_response (w_ia w') = None ∧ ia_messages (w_ia w') = M)).
    { intros w' Hw'. exact Hw'. }
    intros _. apply (triple_bind _ (fun _ => pending_w M)); [apply triple_defer|intros _].
    apply (triple_try_finally _ _ (fun _ => answered_once rsi_handle M) _ (fun _ _ => False)).
    - apply (triple_try_except _ _ _ (body_exn M)); [apply triple_lookup_body|intros e _; apply triple_handler|].
      intros e w' He [He' _]. congruence.
    - intros _. apply triple_finally_quit.
    - intros e w' []. }
  specialize (Ht w (conj Hr eq_refl)). by destruct (lookup rsi_handle w) as [[]].
Qed.

End Steps.

(** ** Witnesses *)

Lemma lookup_answers_witness :
  let w := demo_world ∅ in
  (lookup (H := web_no_chrome) "Vex" w).1 = Exn unbound_driver ∧
  answered_once "Vex" (ia_messages (w_ia w)) (lookup (H := web_no_chrome) "Vex" w).2.
Proof.
  intros w. split; [by vm_compute|].
  apply (lookup_answers (H := web_no_chrome)); [|reflexivity].
  split_and!; [intros e [= <-]; done|intros url e [=]|intros n e [=]].
Defined.
